(** * Context compaction (src/agents/context-summarizer.ts)

    A shallow embedding of the context summarization loader: the token
    estimator, timestamp extraction, the summary store reader, summary
    formatting and the context assembler, over a small model of the
    JavaScript values the module inspects at run time.

    The module casts its inputs to [unknown] and inspects them dynamically
    ([typeof], [Array.isArray], [instanceof Date], [in], [??]), and it
    returns the result of [JSON.parse] through an unchecked [as SummaryFile]
    cast.  Values are therefore modelled dynamically ([JsVal]); the declared
    interfaces ([StoredSummary], [SummaryFile]) are records that are encoded
    into [JsVal]. *)

From Stdlib Require Import ZArith QArith Qround String Ascii DecimalString Lia.
From stdpp Require Import base list.

Local Open Scope Z_scope.

(** ** Strings

    A JavaScript string is a sequence of UTF-16 code units and [.length]
    counts code units. *)

Definition codeunit := N.
Definition jsstring := list codeunit.

Fixpoint lit (s : string) : jsstring :=
  match s with
  | EmptyString => []
  | String a s' => N_of_ascii a :: lit s'
  end.

Fixpoint str_eqb (a b : jsstring) : bool :=
  match a, b with
  | [], [] => true
  | x :: a', y :: b' => N.eqb x y && str_eqb a' b'
  | _, _ => false
  end.

(** [Array.prototype.join] on an array of strings. *)
Fixpoint join (sep : jsstring) (l : list jsstring) : jsstring :=
  match l with
  | [] => []
  | [s] => s
  | s :: rest => s ++ sep ++ join sep rest
  end.

Definition newline : jsstring := [10%N].

(** ** Completions: a call returns a value or throws *)

Inductive Error := TypeError | SyntaxError | SystemError.

Inductive Completion (A : Type) :=
| Return (a : A)
| Throw (e : Error).
Arguments Return {A} a.
Arguments Throw {A} e.

#[export] Instance Completion_ret : MRet Completion := @Return.
#[export] Instance Completion_bind : MBind Completion :=
  fun A B f m => match m with Return a => f a | Throw e => Throw e end.

(** [try { body } catch { handler }] *)
Definition try_catch {A} (body : Completion A) (handler : Completion A)
  : Completion A :=
  match body with Return a => Return a | Throw _ => handler end.

Definition returns {A} (c : Completion A) : Prop := exists a, c = Return a.

(** Evaluate a list of computations left to right, stopping at the first
    throw. *)
Fixpoint sequence {A} (l : list (Completion A)) : Completion (list A) :=
  match l with
  | [] => Return []
  | c :: rest =>
      match c with
      | Return a =>
          match sequence rest with
          | Return r => Return (a :: r)
          | Throw e => Throw e
          end
      | Throw e => Throw e
      end
  end.

(** ** Numbers and time values

    A number is NaN, an infinity or a finite value; finite doubles are
    rationals, and [-0] is identified with [0] (they agree on every
    operation used here: [=== 0], [new Date], [String]). *)

Inductive number :=
| NaN
| PosInfinity
| NegInfinity
| Fin (q : Q).

Definition numOfZ (z : Z) : number := Fin (inject_Z z).
Definition numOfNat (n : nat) : number := numOfZ (Z.of_nat n).

(** The time value of a [Date]: milliseconds since the epoch, [None] for
    an invalid date (time value NaN). *)
Definition TimeValue := option Z.

Definition maxTime : Z := 8640000000000000.

Definition truncate (q : Q) : Z := Z.quot (Qnum q) (Z.pos (Qden q)).

(** TimeClip applied to a number: [new Date(n).getTime()]. *)
Definition TimeClip (n : number) : TimeValue :=
  match n with
  | Fin q =>
      if Qle_bool (inject_Z (- maxTime)) q && Qle_bool q (inject_Z maxTime)
      then Some (truncate q) else None
  | _ => None
  end.

(** [a >= b] on two [Date]s compares their time values; any comparison
    with NaN is false. *)
Definition date_ge (a b : TimeValue) : bool :=
  match a, b with
  | Some x, Some y => y <=? x
  | _, _ => false
  end.

(** ** Values

    The values a message or a parsed summary document can hold: primitives,
    [Date] instances, arrays and plain objects with data properties. *)

#[warnings="-register-all"]
Inductive JsVal :=
| JUndefined
| JNull
| JBool (b : bool)
| JNum (n : number)
| JStr (s : jsstring)
| JDate (tv : TimeValue)
| JArr (elems : list JsVal)
| JObj (props : list (jsstring * JsVal)).

Definition isNullish (v : JsVal) : bool :=
  match v with JUndefined | JNull => true | _ => false end.

(** [a ?? b] with [b] already evaluated (it has no effect here). *)
Definition coalesce (a b : JsVal) : JsVal := if isNullish a then b else a.

Definition isZero (n : number) : bool :=
  match n with Fin q => Qeq_bool q 0 | _ => false end.

Definition ToBoolean (v : JsVal) : bool :=
  match v with
  | JUndefined | JNull => false
  | JBool b => b
  | JNum NaN => false
  | JNum n => negb (isZero n)
  | JStr s => match s with [] => false | _ => true end
  | JDate _ | JArr _ | JObj _ => true
  end.

Inductive JsType := TUndefined | TObject | TBoolean | TNumber | TString.

Definition typeof (v : JsVal) : JsType :=
  match v with
  | JUndefined => TUndefined
  | JNull | JDate _ | JArr _ | JObj _ => TObject
  | JBool _ => TBoolean
  | JNum _ => TNumber
  | JStr _ => TString
  end.

Definition isObjectType (v : JsVal) : bool :=
  match typeof v with TObject => true | _ => false end.

(** [v === 0] *)
Definition strictEqZero (v : JsVal) : bool :=
  match v with JNum n => isZero n | _ => false end.

(** Own data properties of a plain object; the first binding of a key is
    the one in force. *)
Fixpoint assoc (k : jsstring) (props : list (jsstring * JsVal)) : option JsVal :=
  match props with
  | [] => None
  | (k', v) :: rest => if str_eqb k k' then Some v else assoc k rest
  end.

Definition k_length : jsstring := lit "length".

(** Property read [v.k], for the property names the module reads
    ([content], [text], [timestamp], [ts], [createdAt], [summaries],
    [period], [length]).  None of them is inherited from [Object.prototype],
    [Date.prototype] or a primitive wrapper, except [length] on strings and
    arrays.  Reading a property of [undefined] or [null] throws. *)
Definition getProp (v : JsVal) (k : jsstring) : Completion JsVal :=
  match v with
  | JUndefined | JNull => Throw TypeError
  | JObj props => Return (default JUndefined (assoc k props))
  | JArr l => Return (if str_eqb k k_length then JNum (numOfNat (length l)) else JUndefined)
  | JStr s => Return (if str_eqb k k_length then JNum (numOfNat (length s)) else JUndefined)
  | JBool _ | JNum _ | JDate _ => Return JUndefined
  end.

(** Optional chaining [v?.k]. *)
Definition getPropOpt (v : JsVal) (k : jsstring) : Completion JsVal :=
  if isNullish v then Return JUndefined else getProp v k.

(** [k in v], for the one key the module tests ([text]), which arrays and
    dates do not have; throws unless [v] is an object. *)
Definition hasProperty (k : jsstring) (v : JsVal) : Completion bool :=
  match v with
  | JObj props => Return (match assoc k props with Some _ => true | None => false end)
  | JArr _ | JDate _ => Return false
  | _ => Throw TypeError
  end.

(** ** The host

    What the module takes from the platform and cannot be computed from the
    source: [JSON.parse], [Date.parse] on strings (implementation-defined
    outside the ISO format), the rendering of numbers that are not integers
    or exceed 2^53 in magnitude, and of dates (which depends on the time zone), the home
    directory and [path.join]. *)

Class Host := {
  JSON_parse : jsstring -> Completion JsVal;
  Date_parse : jsstring -> TimeValue;
  Number_toString : Q -> jsstring;
  Date_toString : Z -> jsstring;
  homedir : jsstring;
  path_join : list jsstring -> jsstring
}.

(** The file system as the module sees it at one path. *)
Inductive FileState :=
| Missing
| Unreadable
| Contents (raw : jsstring).

Definition FileSystem := jsstring -> FileState.

(** [fs.existsSync] never throws. *)
Definition existsSync (fs : FileSystem) (path : jsstring) : bool :=
  match fs path with Missing => false | _ => true end.

(** [fs.readFileSync(path, "utf8")] *)
Definition readFileSync (fs : FileSystem) (path : jsstring) : Completion jsstring :=
  match fs path with
  | Contents raw => Return raw
  | _ => Throw SystemError
  end.

(** ** String conversion *)

Definition isInteger (q : Q) : bool := Z.rem (Qnum q) (Z.pos (Qden q)) =? 0.

Definition decimal (z : Z) : jsstring :=
  (if z <? 0 then lit "-" else []) ++
  lit (NilZero.string_of_uint (N.to_uint (Z.abs_N z))).

Section Conversion.
Context `{Host}.

(** Number::toString.  An integer up to 2^53 in magnitude prints as its
    decimal expansion.  Beyond that the digits printed are the shortest that
    round-trip, padded with zeros, which is left to the host together with
    the numbers that are not integers. *)
Definition numberToString (n : number) : jsstring :=
  match n with
  | NaN => lit "NaN"
  | PosInfinity => lit "Infinity"
  | NegInfinity => lit "-Infinity"
  | Fin q =>
      let t := truncate q in
      if isInteger q && (Z.abs t <=? 2 ^ 53) then decimal t
      else Number_toString q
  end.

Definition k_toString : jsstring := lit "toString".

(** ToString, as applied by [String(v)] and by template literals.  An
    array joins its elements with commas, [undefined] and [null] elements
    printing as nothing.  A plain object prints through the inherited
    [Object.prototype.toString]; when it carries an own [toString] data
    property, that property shadows the inherited method, is not callable,
    and the conversion throws (the inherited [valueOf] returns the object
    itself). *)
Fixpoint ToString (v : JsVal) : Completion jsstring :=
  match v with
  | JUndefined => Return (lit "undefined")
  | JNull => Return (lit "null")
  | JBool true => Return (lit "true")
  | JBool false => Return (lit "false")
  | JNum n => Return (numberToString n)
  | JStr s => Return s
  | JDate None => Return (lit "Invalid Date")
  | JDate (Some t) => Return (Date_toString t)
  | JArr l =>
      match sequence (map (fun e => if isNullish e then Return [] else ToString e) l) with
      | Return parts => Return (join (lit ",") parts)
      | Throw e => Throw e
      end
  | JObj props =>
      match assoc k_toString props with
      | Some _ => Throw TypeError
      | None => Return (lit "[object Object]")
      end
  end.

End Conversion.

(** ** Token estimate *)

Definition k_content : jsstring := lit "content".
Definition k_text : jsstring := lit "text".

Section Estimate.
Context `{Host}.

(** The body of the inner loop: what one content block adds to [chars]. *)
Definition blockChars (block : JsVal) : Completion Z :=
  match block with
  | JStr s => Return (Z.of_nat (length s))
  | _ =>
      if ToBoolean block && isObjectType block then
        has ← hasProperty k_text block;
        if (has : bool) then
          t ← getProp block k_text;
          s ← ToString (coalesce t (JStr []));
          Return (Z.of_nat (length s))
        else Return 0
      else Return 0
  end.

(** Sum of the contributions of a sequence, left to right. *)
Fixpoint sumChars (f : JsVal -> Completion Z) (l : list JsVal) : Completion Z :=
  match l with
  | [] => Return 0
  | x :: rest =>
      a ← f x;
      b ← sumChars f rest;
      Return (a + b)
  end.

(** The body of the outer loop: what one message adds to [chars]. *)
Definition messageChars (msg : JsVal) : Completion Z :=
  content ← getPropOpt msg k_content;
  match content with
  | JStr s => Return (Z.of_nat (length s))
  | JArr blocks => sumChars blockChars blocks
  | _ => Return 0
  end.

(** [Math.ceil(chars / 4)] *)
Definition estimateTokens (messages : list JsVal) : Completion Z :=
  chars ← sumChars messageChars messages;
  Return (Qceiling (inject_Z chars / 4)).

End Estimate.

(** ** Timestamp extraction *)

Definition k_timestamp : jsstring := lit "timestamp".
Definition k_ts : jsstring := lit "ts".
Definition k_createdAt : jsstring := lit "createdAt".

Section Timestamp.
Context `{Host}.

(** The second half of [extractTimestamp], on the value [ts] picked from
    the message: a [Date] is returned as it is, a string or a number is
    turned into a [Date] that is returned when its time value is not NaN,
    and anything else gives [null] ([None]). *)
Definition toDate (ts : JsVal) : option TimeValue :=
  match ts with
  | JDate tv => Some tv
  | JStr s =>
      match Date_parse s with
      | Some t => Some (Some t)
      | None => None
      end
  | JNum n =>
      match TimeClip n with
      | Some t => Some (Some t)
      | None => None
      end
  | _ => None
  end.

(** [extractTimestamp]: the result is [null] ([None]) or a [Date], given
    by its time value. *)
Definition extractTimestamp (msg : JsVal) : Completion (option TimeValue) :=
  a ← getProp msg k_timestamp;
  ts ← (if isNullish a then
          b ← getProp msg k_ts;
          if isNullish b then getProp msg k_createdAt else Return b
        else Return a);
  Return (toDate ts).

(** [!ts || ts >= cutoffTime] *)
Definition isRecent (cutoffTime : TimeValue) (ts : option TimeValue) : bool :=
  match ts with
  | None => true
  | Some tv => date_ge tv cutoffTime
  end.

(** The filtering loop of [loadCompactedContext]. *)
Fixpoint filterRecent (cutoffTime : TimeValue) (allMessages : list JsVal)
  : Completion (list JsVal) :=
  match allMessages with
  | [] => Return []
  | msg :: rest =>
      ts ← extractTimestamp msg;
      kept ← filterRecent cutoffTime rest;
      Return (if isRecent cutoffTime ts then msg :: kept else kept)
  end.

(** The decision the loop takes for one message. *)
Definition keptBy (cutoffTime : TimeValue) (msg : JsVal) : bool :=
  match extractTimestamp msg with
  | Return ts => isRecent cutoffTime ts
  | Throw _ => false
  end.

End Timestamp.

(** ** Summary store *)

Record StoredSummary := {
  period : jsstring;
  hourKey : jsstring;
  text : jsstring;
  messageCount : number;
  createdAt : jsstring
}.

Record SummaryFile := {
  summaries : list StoredSummary;
  lastSummarizedAt : option jsstring;
  lastProcessedLine : number
}.

Definition k_period : jsstring := lit "period".
Definition k_hourKey : jsstring := lit "hourKey".
Definition k_messageCount : jsstring := lit "messageCount".
Definition k_summaries : jsstring := lit "summaries".
Definition k_lastSummarizedAt : jsstring := lit "lastSummarizedAt".
Definition k_lastProcessedLine : jsstring := lit "lastProcessedLine".

(** The object a [StoredSummary] is at run time. *)
Definition ofStoredSummary (s : StoredSummary) : JsVal :=
  JObj [ (k_period, JStr (period s));
         (k_hourKey, JStr (hourKey s));
         (k_text, JStr (text s));
         (k_messageCount, JNum (messageCount s));
         (k_createdAt, JStr (createdAt s)) ].

Definition ofSummaryFile (f : SummaryFile) : JsVal :=
  JObj [ (k_summaries, JArr (map ofStoredSummary (summaries f)));
         (k_lastSummarizedAt,
           match lastSummarizedAt f with Some s => JStr s | None => JNull end);
         (k_lastProcessedLine, JNum (lastProcessedLine f)) ].

(** Whether a value has the shape the interface [StoredSummary] declares. *)
Definition isStoredSummary (v : JsVal) : bool :=
  match v with
  | JObj props =>
      match assoc k_period props, assoc k_hourKey props, assoc k_text props,
            assoc k_messageCount props, assoc k_createdAt props with
      | Some (JStr _), Some (JStr _), Some (JStr _), Some (JNum _), Some (JStr _) => true
      | _, _, _, _, _ => false
      end
  | _ => false
  end.

(** Whether a value has the shape the interface [SummaryFile] declares. *)
Definition isSummaryFile (v : JsVal) : bool :=
  match v with
  | JObj props =>
      match assoc k_summaries props, assoc k_lastSummarizedAt props,
            assoc k_lastProcessedLine props with
      | Some (JArr l), Some (JStr _ | JNull), Some (JNum _) => forallb isStoredSummary l
      | _, _, _ => false
      end
  | _ => false
  end.

Section Store.
Context `{Host}.

Definition SESSIONS_DIR : jsstring :=
  path_join [homedir; lit ".clawdis"; lit "sessions"].
Definition KEEP_RECENT_MINUTES : Z := 60.

Definition summaryPath (sessionId : jsstring) : jsstring :=
  path_join [SESSIONS_DIR; sessionId ++ lit ".summary.json"].

(** [loadStoredSummaries]: the parsed document is returned as it is (the
    cast [as SummaryFile] checks nothing at run time). *)
Definition loadStoredSummaries (fs : FileSystem) (sessionId : jsstring)
  : Completion JsVal :=
  let summaryPath := summaryPath sessionId in
  try_catch
    (if negb (existsSync fs summaryPath) then Return JNull
     else
       raw ← readFileSync fs summaryPath;
       JSON_parse raw)
    (Return JNull).

End Store.

(** ** Summary formatting *)

(** [Array.prototype.slice(start)] with one argument: a negative [start]
    counts from the end, and both ends are clamped. *)
Definition sliceFrom {A} (start : Z) (l : list A) : list A :=
  let len := Z.of_nat (length l) in
  let k := if start <? 0 then Z.max (len + start) 0 else Z.min start len in
  drop (Z.to_nat k) l.

(** The method call [v.slice(start)]: arrays and strings have the method,
    nothing else in [JsVal] does. *)
Definition callSlice (v : JsVal) (start : Z) : Completion JsVal :=
  match v with
  | JArr l => Return (JArr (sliceFrom start l))
  | JStr s => Return (JStr (sliceFrom start s))
  | _ => Throw TypeError
  end.

(** The method call [v.map(f)] for a callback that yields strings: only
    arrays have the method. *)
Definition callMap (v : JsVal) (f : JsVal -> Completion jsstring)
  : Completion (list jsstring) :=
  match v with
  | JArr l => sequence (map f l)
  | _ => Throw TypeError
  end.

(** The marker that opens a summary line, as the code units of the literal
    in the source: U+00E2, U+20AC, U+00A2. *)
Definition marker : jsstring := [226%N; 8364%N; 162%N].

(** U+2022 BULLET. *)
Definition bullet : jsstring := [8226%N].

Definition header : jsstring :=
  lit "[Context: Earlier conversation summary - for reference only]" ++ newline.
Definition footer : jsstring :=
  newline ++ lit "[End summary - respond briefly to recent messages below]" ++ newline.

Section Format.
Context `{Host}.

(** The callback of [map]: the template literal for one summary. *)
Definition summaryLine (s : JsVal) : Completion jsstring :=
  p ← getProp s k_period;
  ps ← ToString p;
  t ← getProp s k_text;
  ts ← ToString t;
  Return (marker ++ lit " " ++ ps ++ lit ": " ++ ts).

Definition formatSummariesAsContext (summaries : JsVal) : Completion jsstring :=
  len ← getProp summaries k_length;
  if strictEqZero len then Return []
  else
    recentSummaries ← callSlice summaries (-6);
    lines ← callMap recentSummaries summaryLine;
    Return (header ++ join newline lines ++ footer).

End Format.

(** ** Context assembly *)

Record CompactedContext := {
  summaryPrefix : jsstring;
  recentMessages : list JsVal;
  wasSummarized : bool;
  summaryCount : JsVal
}.

Section Assemble.
Context `{Host}.

(** [loadCompactedContext].  [now] is the time value of [new Date()].  The
    filtering loop runs before the test for missing summaries, as in the
    source.  The log line is not modelled beyond the values it reads, which
    are read again for the result. *)
Definition cutoffAt (now : Z) : TimeValue :=
  TimeClip (numOfZ (now - KEEP_RECENT_MINUTES * 60 * 1000)).

Definition loadCompactedContext (fs : FileSystem) (now : Z)
    (sessionId : jsstring) (allMessages : list JsVal)
  : Completion CompactedContext :=
  summaryFile ← loadStoredSummaries fs sessionId;
  let cutoffTime := cutoffAt now in
  recentMessages ← filterRecent cutoffTime allMessages;
  noSummaries ← (if negb (ToBoolean summaryFile) then Return true
                 else
                   ss ← getProp summaryFile k_summaries;
                   len ← getProp ss k_length;
                   Return (strictEqZero len));
  if (noSummaries : bool) then
    Return {| summaryPrefix := [];
              recentMessages := allMessages;
              wasSummarized := false;
              summaryCount := JNum (numOfZ 0) |}
  else
    ss ← getProp summaryFile k_summaries;
    summaryPrefix ← formatSummariesAsContext ss;
    count ← getProp ss k_length;
    Return {| summaryPrefix := summaryPrefix;
              recentMessages := recentMessages;
              wasSummarized := true;
              summaryCount := count |}.

End Assemble.

(** ** A host and a file system to evaluate on *)

(** JSON text of a value built from [null], booleans, integers, strings
    that need no escape, arrays and objects: what [JSON.stringify] prints
    for it.  [demoHost] parses exactly the texts of [demoDocuments], each
    to the value it was printed from, and rejects every other text; it is
    used only at those texts and at [doc_truncated], which is not JSON. *)
Definition dquote : jsstring := [34%N].

Fixpoint printJson (v : JsVal) : jsstring :=
  match v with
  | JNum (Fin q) => decimal (truncate q)
  | JStr s => dquote ++ s ++ dquote
  | JBool true => lit "true"
  | JBool false => lit "false"
  | JArr l => lit "[" ++ join (lit ",") (map printJson l) ++ lit "]"
  | JObj props =>
      lit "{" ++
      join (lit ",")
        (map (fun kv => dquote ++ fst kv ++ dquote ++ lit ":" ++ printJson (snd kv)) props)
      ++ lit "}"
  | _ => lit "null"
  end.

Definition sampleSummary (p t : string) : StoredSummary :=
  {| period := lit p; hourKey := lit p; text := lit t;
     messageCount := numOfZ 4; createdAt := lit "2024-01-01T12:00:00.000Z" |}.

Definition sampleFile (l : list StoredSummary) : SummaryFile :=
  {| summaries := l; lastSummarizedAt := None; lastProcessedLine := numOfZ 0 |}.

Definition threeSummaries : list StoredSummary :=
  [ sampleSummary "09:00-10:00" "planned the trip";
    sampleSummary "10:00-11:00" "booked the train";
    sampleSummary "11:00-12:00" "chose a hotel" ].

Definition sevenSummaries : list StoredSummary :=
  [ sampleSummary "05:00-06:00" "a"; sampleSummary "06:00-07:00" "b";
    sampleSummary "07:00-08:00" "c"; sampleSummary "08:00-09:00" "d" ]
  ++ threeSummaries.

Definition demoDocuments : list JsVal :=
  [ JObj [];
    ofSummaryFile (sampleFile []);
    ofSummaryFile (sampleFile threeSummaries);
    ofSummaryFile (sampleFile sevenSummaries) ].

Definition doc_truncated : jsstring := lit "{".

Fixpoint parseAmong (docs : list JsVal) (raw : jsstring) : Completion JsVal :=
  match docs with
  | [] => Throw SyntaxError
  | v :: rest => if str_eqb (printJson v) raw then Return v else parseAmong rest raw
  end.

#[export] Instance demoHost : Host := {|
  JSON_parse := parseAmong demoDocuments;
  Date_parse := fun s =>
    if str_eqb s (lit "1970-01-01T00:00:01.000Z") then Some 1000 else None;
  Number_toString := fun _ => lit "0.5";
  Date_toString := fun _ => lit "Thu Jan 01 1970 00:00:00 GMT+0000";
  homedir := lit "/home/ubuntu";
  path_join := join (lit "/")
|}.

(** Sessions [shape], [empty], [three], [seven] hold the documents above
    in that order, [torn] holds a truncated write, [locked] cannot be
    read, and no other session has a file. *)
Definition demoSessions : list (jsstring * FileState) :=
  [ (lit "shape", Contents (printJson (JObj [])));
    (lit "empty", Contents (printJson (ofSummaryFile (sampleFile []))));
    (lit "three", Contents (printJson (ofSummaryFile (sampleFile threeSummaries))));
    (lit "seven", Contents (printJson (ofSummaryFile (sampleFile sevenSummaries))));
    (lit "torn", Contents doc_truncated);
    (lit "locked", Unreadable) ].

Fixpoint fileAt (sessions : list (jsstring * FileState)) (path : jsstring) : FileState :=
  match sessions with
  | [] => Missing
  | (sid, st) :: rest =>
      if str_eqb (summaryPath sid) path then st else fileAt rest path
  end.

Definition demoFs : FileSystem := fileAt demoSessions.

(** Sample messages, for a call at [demoNow]: the cutoff is then 6400000. *)
Definition demoNow : Z := 10000000.

Definition textMessage (props : list (jsstring * JsVal)) (body : string) : JsVal :=
  JObj (props ++ [(k_content, JStr (lit body))]).

Definition msgUntimed : JsVal := textMessage [] "no timestamp".
Definition msgAtCutoff : JsVal :=
  textMessage [(k_timestamp, JNum (numOfZ 6400000))] "at the cutoff".
Definition msgBeforeCutoff : JsVal :=
  textMessage [(k_ts, JNum (numOfZ 6399999))] "just before".
Definition msgGarbled : JsVal :=
  textMessage [(k_timestamp, JStr (lit "garbage")); (k_ts, JNum (numOfZ 1000))]
    "garbled first field".
Definition msgInvalidDate : JsVal :=
  textMessage [(k_timestamp, JDate None)] "invalid date".

(** A message whose one content block has, as its [text], an object with
    an own [toString] property that is not a function. *)
Definition unprintableMessage : JsVal :=
  JObj [(k_content,
         JArr [JObj [(k_text, JObj [(k_toString, JNum (numOfZ 1))])]])].

Definition demoMessages : list JsVal :=
  [msgUntimed; msgAtCutoff; msgBeforeCutoff; msgGarbled].

(** ** Vocabulary of the statements *)

(** The last six entries of a sequence (all of them when there are fewer). *)
Definition lastSix {A} (l : list A) : list A := drop (length l - 6) l.

(** A summary line opened by [mk]. *)
Definition lineOf (mk : jsstring) (s : StoredSummary) : jsstring :=
  mk ++ lit " " ++ period s ++ lit ": " ++ text s.

(** The formatted block with summary lines opened by [mk]. *)
Definition blockOf (mk : jsstring) (kept : list StoredSummary) : jsstring :=
  header ++ join newline (map (lineOf mk) kept) ++ footer.

(** What [loadStoredSummaries] returns when there is nothing to use:
    [null], or a document whose [summaries] is the empty array. *)
Definition noSummaries (file : JsVal) : Prop :=
  file = JNull \/
  exists props, file = JObj props /\ assoc k_summaries props = Some (JArr []).

(** The result of the degrade-to-no-op path. *)
Definition unsummarized (allMessages : list JsVal) : CompactedContext :=
  {| summaryPrefix := [];
     recentMessages := allMessages;
     wasSummarized := false;
     summaryCount := JNum (numOfZ 0) |}.

(** The text does not parse as the [SummaryFile] structure: it is not
    JSON, or it is JSON for a value of another shape. *)
Definition failsToParse `{Host} (raw : jsstring) : Prop :=
  match JSON_parse raw with
  | Throw _ => True
  | Return v => isSummaryFile v = false
  end.

(** The text is not JSON: [JSON.parse] throws on it. *)
Definition notJson `{Host} (raw : jsstring) : Prop :=
  exists e, JSON_parse raw = Throw e.

(** The stored resource of a session does not exist, cannot be read, or
    holds a text for which [bad] holds. *)
Definition unusable `{Host} (bad : jsstring -> Prop) (fs : FileSystem)
    (sid : jsstring) : Prop :=
  fs (summaryPath sid) = Missing \/
  fs (summaryPath sid) = Unreadable \/
  exists raw, fs (summaryPath sid) = Contents raw /\ bad raw.


Definition field (props : list (jsstring * JsVal)) (k : jsstring) : JsVal :=
  default JUndefined (assoc k props).



(** A content block whose [text], if it is an object with one, has a
    string rendering. *)
Definition printableText `{Host} (block : JsVal) : Prop :=
  forall props v, block = JObj props -> assoc k_text props = Some v ->
    returns (ToString (coalesce v (JStr []))).

(** A message all of whose content blocks are so. *)
Definition printableContent `{Host} (msg : JsVal) : Prop :=
  forall blocks, getPropOpt msg k_content = Return (JArr blocks) ->
    Forall printableText blocks.

(** A message with the given content blocks and nothing else. *)
Definition blocksMessage (blocks : list JsVal) : JsVal :=
  JObj [(k_content, JArr blocks)].

(** Messages the loops can read a property of. *)
Definition readable (msgs : list JsVal) : Prop :=
  Forall (fun m => isNullish m = false) msgs.


(** ** The agent envelope ([formatTimestamp], [formatAgentEnvelope]) *)

(** WhiteSpace and LineTerminator code units, which [String.prototype.trim]
    strips: tab, LF, VT, FF, CR, space, NBSP, U+1680, U+2000 to U+200A,
    U+2028, U+2029, U+202F, U+205F, U+3000 and U+FEFF. *)
Definition isWhiteSpace (c : codeunit) : bool :=
  ((9 <=? c) && (c <=? 13) || (c =? 32) || (c =? 160) || (c =? 5760)
   || (8192 <=? c) && (c <=? 8202) || (c =? 8232) || (c =? 8233)
   || (c =? 8239) || (c =? 8287) || (c =? 12288) || (c =? 65279))%N.

Fixpoint trimStart (s : jsstring) : jsstring :=
  match s with
  | [] => []
  | c :: rest => if isWhiteSpace c then trimStart rest else s
  end.

Definition trimEnd (s : jsstring) : jsstring := rev (trimStart (rev s)).

(** [s.trim()] *)
Definition trim (s : jsstring) : jsstring := trimEnd (trimStart s).

(** [s.padStart(target, fill)] for a fill string of one code unit. *)
Definition padStart (target : nat) (fill : codeunit) (s : jsstring) : jsstring :=
  repeat fill (target - length s) ++ s.

(** The local-time getters of a valid [Date], which depend on the time
    zone of the host; their argument is the time value. *)
Class LocalTime := {
  getFullYear : Z -> Z;
  getMonth : Z -> Z;
  getDate : Z -> Z;
  getHours : Z -> Z;
  getMinutes : Z -> Z
}.

Module Envelope.

(** [number | Date] *)
Inductive Timestamp :=
| TsNumber (n : number)
| TsDate (tv : TimeValue).

Record AgentEnvelopeParams := {
  surface : jsstring;
  from : option jsstring;
  timestamp : option Timestamp;
  host : option jsstring;
  ip : option jsstring;
  body : jsstring
}.

(** [!ts] is false for every [Date], and for a number unless it is 0 or
    NaN. *)
Definition truthy (ts : Timestamp) : bool :=
  match ts with
  | TsNumber n => ToBoolean (JNum n)
  | TsDate _ => true
  end.

(** [pad]: the getters yield integers, which print in decimal. *)
Definition pad (n : Z) : jsstring := padStart 2 48%N (decimal n).

Section Format.
Context `{LocalTime}.

Definition formatTimestamp (ts : option Timestamp) : option jsstring :=
  match ts with
  | None => None
  | Some ts =>
      if negb (truthy ts) then None
      else
        let date := match ts with TsDate tv => tv | TsNumber n => TimeClip n end in
        match date with
        | None => None
        | Some t =>
            Some (decimal (getFullYear t) ++ lit "-" ++ pad (getMonth t + 1)
                  ++ lit "-" ++ pad (getDate t) ++ lit " " ++ pad (getHours t)
                  ++ lit ":" ++ pad (getMinutes t))
        end
  end.

(** [if (field?.trim()) parts.push(field.trim())] *)
Definition pushTrimmed (field : option jsstring) : list jsstring :=
  match field with
  | None => []
  | Some s => match trim s with [] => [] | t => [t] end
  end.

Definition formatAgentEnvelope (params : AgentEnvelopeParams) : jsstring :=
  let surface := match trim (surface params) with [] => lit "Surface" | t => t end in
  let parts :=
    [surface] ++ pushTrimmed (from params) ++ pushTrimmed (host params)
    ++ pushTrimmed (ip params)
    ++ match formatTimestamp (timestamp params) with
       | Some ((_ :: _) as ts) => [ts]
       | _ => []
       end in
  let header := lit "[" ++ join (lit " ") parts ++ lit "]" in
  header ++ lit " " ++ body params.

End Format.

End Envelope.

(** A string that does not start with white space. *)
Definition startsClean (s : jsstring) : Prop :=
  match s with [] => True | c :: _ => isWhiteSpace c = false end.

(** A string made of white space only. *)
Definition blank (s : jsstring) : Prop :=
  Forall (fun c => isWhiteSpace c = true) s.

(** Local time in the time zone UTC, for the time values of 3 February
    1970, to evaluate on. *)
#[export] Instance demoLocalTime : LocalTime := {|
  getFullYear := fun _ => 1970;
  getMonth := fun _ => 1;
  getDate := fun _ => 3;
  getHours := fun t => (t / 3600000) mod 24;
  getMinutes := fun t => (t / 60000) mod 60
|}.

(** 1970-02-03 04:05:00 UTC as a time value. *)
Definition demoInstant : Z := 2865900000.

(** The code unit of the decimal digit [d]. *)
Definition digitUnit (d : Z) : codeunit := Z.to_N (48 + d).

(** The two digits, and the four digits, of a number in decimal. *)
Definition twoDigits (n : Z) : jsstring :=
  [digitUnit (n / 10); digitUnit (n mod 10)].
Definition fourDigits (n : Z) : jsstring :=
  [digitUnit (n / 1000); digitUnit ((n / 100) mod 10);
   digitUnit ((n / 10) mod 10); digitUnit (n mod 10)].

(** ** Vocabulary of the further statements *)

(** The integers [lo], [lo + 1], ..., [lo + n - 1]. *)
Definition rangeFrom (lo n : Z) : list Z :=
  map (fun i => lo + Z.of_nat i) (seq 0 (Z.to_nat n)).

(** The number of occurrences of a code unit in a string. *)
Definition countUnit (c : codeunit) (s : jsstring) : nat :=
  length (List.filter (N.eqb c) s).

(** A computation that throws nothing but a [TypeError]. *)
Definition onlyTypeError {A} (c : Completion A) : Prop :=
  forall e, c = Throw e -> e = TypeError.

(** * Properties *)

(** ** Strings and completions *)

Lemma str_eqb_eq (a b : jsstring) : str_eqb a b = true <-> a = b.
Proof.
  revert b. induction a as [|x a IH]; intros [|y b]; simpl; split;
    try congruence; try discriminate.
  - intros Hab. apply andb_true_iff in Hab as [Hxy Hab].
    apply N.eqb_eq in Hxy. apply IH in Hab. congruence.
  - intros Hab. injection Hab as -> ->.
    apply andb_true_iff. split; [apply N.eqb_refl | by apply IH].
Qed.

Lemma bind_Return {A B} (f : A -> Completion B) (a : A) :
  (Return a ≫= f) = f a.
Proof. reflexivity. Qed.

Lemma bind_returns {A B} (f : A -> Completion B) (m : Completion A) (b : B) :
  (m ≫= f) = Return b -> exists a, m = Return a /\ f a = Return b.
Proof. destruct m as [a|e]; [by exists a | discriminate]. Qed.

Lemma sequence_map_Return {A B} (f : A -> Completion B) (g : A -> B) (l : list A) :
  (forall a, a ∈ l -> f a = Return (g a)) ->
  sequence (map f l) = Return (map g l).
Proof.
  induction l as [|a l IH]; intros Hf; simpl; [done|].
  rewrite (Hf a) by apply list_elem_of_here.
  rewrite IH; [done|]. intros b Hb. apply Hf. by apply list_elem_of_further.
Qed.

Lemma sequence_length {A} (l : list (Completion A)) (r : list A) :
  sequence l = Return r -> length r = length l.
Proof.
  revert r. induction l as [|c l IH]; intros r; simpl.
  - by intros [= <-].
  - destruct c as [a|e]; [|discriminate].
    destruct (sequence l) as [r'|e]; [|discriminate].
    intros [= <-]. simpl. f_equal. by apply IH.
Qed.

(** ** Property reads *)

Ltac nullish_cases v :=
  destruct v as [| |?|?|?|?|?|?]; simpl in *; try discriminate.

Lemma getProp_returns (v : JsVal) (k : jsstring) :
  isNullish v = false -> returns (getProp v k).
Proof. intros Hv. nullish_cases v; eexists; reflexivity. Qed.

Lemma getProp_returns_inv (v : JsVal) (k : jsstring) (x : JsVal) :
  getProp v k = Return x -> isNullish v = false.
Proof. intros Hx. nullish_cases v; reflexivity. Qed.

Lemma isZero_numOfNat (n : nat) : isZero (numOfNat n) = bool_decide (n = 0%nat).
Proof.
  unfold isZero, numOfNat, numOfZ, Qeq_bool. simpl.
  destruct n as [|n]; [reflexivity|].
  rewrite bool_decide_eq_false_2 by discriminate.
  apply Z.eqb_neq. lia.
Qed.

Lemma length_of_array (l : list JsVal) :
  getProp (JArr l) k_length = Return (JNum (numOfNat (length l))).
Proof. reflexivity. Qed.

(** ** Time values *)

Lemma truncate_inject_Z (z : Z) : truncate (inject_Z z) = z.
Proof. unfold truncate. simpl. apply Z.quot_1_r. Qed.

Lemma TimeClip_in_range (z : Z) :
  - maxTime <= z <= maxTime -> TimeClip (numOfZ z) = Some z.
Proof.
  intros [Hlo Hhi]. unfold TimeClip, numOfZ.
  rewrite truncate_inject_Z.
  assert (Qle_bool (inject_Z (- maxTime)) (inject_Z z) = true) as ->.
  { apply Qle_bool_iff. by rewrite <- Zle_Qle. }
  assert (Qle_bool (inject_Z z) (inject_Z maxTime) = true) as ->.
  { apply Qle_bool_iff. by rewrite <- Zle_Qle. }
  reflexivity.
Qed.

(** ** Timestamp extraction and the filtering loop *)

Section TimestampFacts.
Context `{Host}.

Lemma extractTimestamp_returns (msg : JsVal) :
  isNullish msg = false -> returns (extractTimestamp msg).
Proof.
  intros Hmsg. unfold extractTimestamp.
  destruct (getProp_returns msg k_timestamp Hmsg) as [a ->].
  destruct (getProp_returns msg k_ts Hmsg) as [b ->].
  destruct (getProp_returns msg k_createdAt Hmsg) as [c ->].
  simpl. destruct (isNullish a); simpl; [destruct (isNullish b); simpl|];
    eexists; reflexivity.
Qed.

Lemma filterRecent_filter (cutoffTime : TimeValue) (msgs : list JsVal) :
  readable msgs ->
  filterRecent cutoffTime msgs = Return (List.filter (keptBy cutoffTime) msgs).
Proof.
  induction 1 as [|m msgs Hm _ IH]; simpl; [done|].
  unfold keptBy at 1.
  destruct (extractTimestamp_returns m Hm) as [ts ->].
  rewrite bind_Return, IH, bind_Return.
  by destruct (isRecent cutoffTime ts).
Qed.

Lemma filterRecent_returns_inv (cutoffTime : TimeValue) (msgs kept : list JsVal) :
  filterRecent cutoffTime msgs = Return kept ->
  kept = List.filter (keptBy cutoffTime) msgs.
Proof.
  revert kept. induction msgs as [|m msgs IH]; intros kept; simpl.
  - by intros [= <-].
  - intros Hk. apply bind_returns in Hk as (ts & Hts & Hk).
    apply bind_returns in Hk as (kept' & Hkept' & Hk).
    injection Hk as <-. unfold keptBy at 1. rewrite Hts.
    rewrite (IH kept' Hkept'). by destruct (isRecent cutoffTime ts).
Qed.

End TimestampFacts.

(** ** The summary store reader *)

Section StoreFacts.
Context `{Host}.

Lemma loadStoredSummaries_returns (fs : FileSystem) (sid : jsstring) :
  returns (loadStoredSummaries fs sid).
Proof.
  unfold loadStoredSummaries, existsSync, readFileSync, returns.
  destruct (fs (summaryPath sid)) as [| |raw]; simpl; eauto.
  destruct (JSON_parse raw); simpl; eauto.
Qed.

Lemma loadStoredSummaries_missing (fs : FileSystem) (sid : jsstring) :
  fs (summaryPath sid) = Missing -> loadStoredSummaries fs sid = Return JNull.
Proof.
  intros Hfs. unfold loadStoredSummaries, existsSync. by rewrite Hfs.
Qed.

Lemma loadStoredSummaries_unreadable (fs : FileSystem) (sid : jsstring) :
  fs (summaryPath sid) = Unreadable -> loadStoredSummaries fs sid = Return JNull.
Proof.
  intros Hfs. unfold loadStoredSummaries, existsSync, readFileSync.
  by rewrite Hfs.
Qed.

Lemma loadStoredSummaries_contents (fs : FileSystem) (sid raw : jsstring) :
  fs (summaryPath sid) = Contents raw ->
  loadStoredSummaries fs sid = try_catch (JSON_parse raw) (Return JNull).
Proof.
  intros Hfs. unfold loadStoredSummaries, existsSync, readFileSync.
  by rewrite Hfs.
Qed.

End StoreFacts.

(** ** Formatting *)

Lemma sliceFrom_lastSix {A} (l : list A) : sliceFrom (-6) l = lastSix l.
Proof.
  unfold sliceFrom, lastSix. simpl. f_equal. lia.
Qed.

Lemma lastSix_length {A} (l : list A) :
  length (lastSix l) = Nat.min (length l) 6.
Proof. unfold lastSix. rewrite length_drop. lia. Qed.

Lemma lastSix_suffix {A} (l : list A) :
  take (length l - 6) l ++ lastSix l = l.
Proof. apply take_drop. Qed.

Lemma lastSix_nonempty {A} (l : list A) : l <> [] -> lastSix l <> [].
Proof.
  intros Hl Hnil. apply (f_equal length) in Hnil.
  rewrite lastSix_length in Hnil. destruct l; [done|]. simpl in Hnil. lia.
Qed.

Section FormatFacts.
Context `{Host}.

Lemma summaryLine_typed (s : StoredSummary) :
  summaryLine (ofStoredSummary s) = Return (lineOf marker s).
Proof. reflexivity. Qed.

Lemma formatSummariesAsContext_array (l : list JsVal) :
  formatSummariesAsContext (JArr l) =
  if bool_decide (length l = 0%nat) then Return []
  else lines ← sequence (map summaryLine (lastSix l));
       Return (header ++ join newline lines ++ footer).
Proof.
  unfold formatSummariesAsContext.
  rewrite length_of_array, bind_Return. unfold strictEqZero.
  rewrite isZero_numOfNat. case_bool_decide; [done|].
  unfold callSlice. rewrite bind_Return. unfold callMap.
  by rewrite sliceFrom_lastSix.
Qed.

Lemma lastSix_map {A B} (f : A -> B) (l : list A) :
  lastSix (map f l) = map f (lastSix l).
Proof. unfold lastSix. by rewrite length_map, <- fmap_drop. Qed.

Lemma formatSummariesAsContext_typed (ss : list StoredSummary) :
  formatSummariesAsContext (JArr (map ofStoredSummary ss)) =
  Return (match ss with [] => [] | _ => blockOf marker (lastSix ss) end).
Proof.
  rewrite formatSummariesAsContext_array, length_map.
  destruct ss as [|s ss]; [done|].
  rewrite bool_decide_eq_false_2 by discriminate.
  rewrite lastSix_map, map_map.
  rewrite (sequence_map_Return _ (lineOf marker)); [done|].
  intros a _. apply summaryLine_typed.
Qed.

(** Whenever formatting returns on a value whose length is not zero, the
    value is an array and the block is not the empty string. *)
Lemma formatSummariesAsContext_nonempty (v len : JsVal) (out : jsstring) :
  getProp v k_length = Return len -> strictEqZero len = false ->
  formatSummariesAsContext v = Return out ->
  out <> [] /\ exists l, v = JArr l /\ l <> [].
Proof.
  intros Hlen Hnz. unfold formatSummariesAsContext.
  rewrite Hlen, bind_Return, Hnz.
  intros Hout. apply bind_returns in Hout as (recent & Hslice & Hout).
  apply bind_returns in Hout as (lines & Hmap & Hout).
  injection Hout as <-. split; [discriminate|].
  destruct v as [| |?|?|s|?|l|?]; simpl in Hslice; try discriminate.
  - injection Hslice as <-. discriminate.
  - exists l. split; [done|]. intros ->.
    rewrite length_of_array in Hlen. injection Hlen as <-. discriminate.
Qed.

End FormatFacts.

(** ** The assembler *)

Section AssembleFacts.
Context `{Host}.

Lemma loadCompactedContext_fallback (fs : FileSystem) (now : Z)
    (sid : jsstring) (msgs : list JsVal) (file : JsVal) :
  readable msgs ->
  loadStoredSummaries fs sid = Return file ->
  noSummaries file ->
  loadCompactedContext fs now sid msgs = Return (unsummarized msgs).
Proof.
  intros Hmsgs Hfile Hnone. unfold loadCompactedContext.
  rewrite Hfile, bind_Return. simpl.
  rewrite (filterRecent_filter _ _ Hmsgs).
  destruct Hnone as [-> | (props & -> & Hss)]; [reflexivity|].
  simpl. by rewrite Hss.
Qed.

Lemma loadCompactedContext_summarized (fs : FileSystem) (now : Z)
    (sid : jsstring) (msgs : list JsVal) (sf : SummaryFile) :
  readable msgs ->
  loadStoredSummaries fs sid = Return (ofSummaryFile sf) ->
  summaries sf <> [] ->
  loadCompactedContext fs now sid msgs =
  Return {| summaryPrefix := blockOf marker (lastSix (summaries sf));
            recentMessages := List.filter (keptBy (cutoffAt now)) msgs;
            wasSummarized := true;
            summaryCount := JNum (numOfNat (length (summaries sf))) |}.
Proof.
  intros Hmsgs Hfile Hne. unfold loadCompactedContext.
  rewrite Hfile, bind_Return. simpl.
  rewrite (filterRecent_filter _ _ Hmsgs). simpl.
  change (Qeq_bool (inject_Z (Z.of_nat ?n)) 0) with (isZero (numOfNat n)).
  rewrite isZero_numOfNat, length_map.
  rewrite bool_decide_eq_false_2 by (by destruct (summaries sf)).
  rewrite formatSummariesAsContext_typed. simpl.
  by destruct (summaries sf).
Qed.

(** Every way [loadCompactedContext] can return. *)
Lemma loadCompactedContext_inv (fs : FileSystem) (now : Z)
    (sid : jsstring) (msgs : list JsVal) (ctx : CompactedContext) :
  loadCompactedContext fs now sid msgs = Return ctx ->
  exists file, loadStoredSummaries fs sid = Return file /\
    (ctx = unsummarized msgs \/
     exists l, l <> [] /\
       getProp file k_summaries = Return (JArr l) /\
       formatSummariesAsContext (JArr l) = Return (summaryPrefix ctx) /\
       summaryPrefix ctx <> [] /\
       recentMessages ctx = List.filter (keptBy (cutoffAt now)) msgs /\
       wasSummarized ctx = true /\
       summaryCount ctx = JNum (numOfNat (length l))).
Proof.
  unfold loadCompactedContext. intros Hctx.
  apply bind_returns in Hctx as (file & Hfile & Hctx).
  exists file. split; [done|]. simpl in Hctx.
  apply bind_returns in Hctx as (kept & Hkept & Hctx).
  apply filterRecent_returns_inv in Hkept as ->.
  apply bind_returns in Hctx as (none & Hnone & Hctx).
  destruct none.
  { left. by injection Hctx as <-. }
  right.
  apply bind_returns in Hctx as (ss & Hss & Hctx).
  apply bind_returns in Hctx as (prefix & Hprefix & Hctx).
  apply bind_returns in Hctx as (count & Hcount & Hctx).
  injection Hctx as <-. simpl.
  destruct (ToBoolean file); simpl in Hnone; [|discriminate].
  rewrite Hss, bind_Return, Hcount, bind_Return in Hnone.
  injection Hnone as Hnz.
  destruct (formatSummariesAsContext_nonempty _ _ _ Hcount Hnz Hprefix)
    as (Hne & l & -> & Hl).
  exists l. rewrite length_of_array in Hcount. injection Hcount as <-.
  done.
Qed.

End AssembleFacts.

(** * Statements of the specification *)

(** ** C1: without summaries the whole history is returned *)

(** C1.  When the summary store of a session is absent, or its summary
    sequence is empty, [loadCompactedContext] returns the empty prefix, the
    full input message sequence (the same elements in the same order, not
    filtered by the recency window), [wasSummarized = false] and
    [summaryCount = 0].  The messages are values whose properties can be
    read, as the type [AppMessage] has them. *)
Theorem C1_no_summaries_returns_all_messages `{Host}
    (fs : FileSystem) (now : Z) (sid : jsstring) (msgs : list JsVal)
    (file : JsVal) :
  readable msgs ->
  loadStoredSummaries fs sid = Return file ->
  noSummaries file ->
  exists ctx,
    loadCompactedContext fs now sid msgs = Return ctx /\
    summaryPrefix ctx = [] /\
    recentMessages ctx = msgs /\
    wasSummarized ctx = false /\
    summaryCount ctx = JNum (numOfZ 0).
Proof.
  intros Hmsgs Hfile Hnone. exists (unsummarized msgs).
  split; [by eapply loadCompactedContext_fallback|done].
Qed.

Lemma C1_witness_empty_sequence :
  exists ctx,
    loadCompactedContext demoFs demoNow (lit "empty") demoMessages = Return ctx /\
    summaryPrefix ctx = [] /\
    recentMessages ctx = demoMessages /\
    wasSummarized ctx = false /\
    summaryCount ctx = JNum (numOfZ 0).
Proof.
  apply (C1_no_summaries_returns_all_messages demoFs demoNow (lit "empty")
           demoMessages (ofSummaryFile (sampleFile []))).
  - repeat constructor.
  - vm_compute. reflexivity.
  - right. eexists. split; reflexivity.
Defined.

(** The same on a session that has no file at all. *)
Example no_file_returns_all_messages :
  loadCompactedContext demoFs demoNow (lit "fresh") demoMessages =
  Return (unsummarized demoMessages).
Proof.
  apply (loadCompactedContext_fallback _ _ _ _ JNull).
  - repeat constructor.
  - vm_compute. reflexivity.
  - by left.
Qed.

(** ** C2: an unusable summary store is silent *)

(** C2, as stated, fails: a stored text that is JSON, but not for a value
    of the [SummaryFile] structure, is returned as parsed.  Session [shape]
    holds the text of the empty object: [loadStoredSummaries] returns that
    object, not [null], and [loadCompactedContext] throws on reading the
    length of its missing [summaries]. *)
Lemma C2_counterexample_wrong_shape :
  unusable failsToParse demoFs (lit "shape") /\
  loadStoredSummaries demoFs (lit "shape") = Return (JObj []) /\
  loadStoredSummaries demoFs (lit "shape") <> Return JNull /\
  readable demoMessages /\
  loadCompactedContext demoFs demoNow (lit "shape") demoMessages = Throw TypeError.
Proof.
  split; [|split; [|split; [|split]]].
  - right. right. exists (lit "{}"). split; vm_compute; reflexivity.
  - vm_compute. reflexivity.
  - vm_compute. discriminate.
  - repeat constructor.
  - vm_compute. reflexivity.
Qed.

(** C2, amended.  [loadStoredSummaries] never throws, and it returns
    [null] whenever the stored resource does not exist, cannot be read, or
    holds a text that is not JSON; [loadCompactedContext] on such a session
    takes the no-summary path and does not throw. *)
Theorem C2_unusable_store_is_absent `{Host} (fs : FileSystem) (sid : jsstring) :
  returns (loadStoredSummaries fs sid) /\
  (unusable notJson fs sid ->
   loadStoredSummaries fs sid = Return JNull /\
   forall now msgs, readable msgs ->
     loadCompactedContext fs now sid msgs = Return (unsummarized msgs)).
Proof.
  split; [apply loadStoredSummaries_returns|].
  intros Hbad.
  assert (loadStoredSummaries fs sid = Return JNull) as Hnull.
  { destruct Hbad as [Hfs | [Hfs | (raw & Hfs & e & Hraw)]].
    - by apply loadStoredSummaries_missing.
    - by apply loadStoredSummaries_unreadable.
    - rewrite (loadStoredSummaries_contents _ _ _ Hfs), Hraw. reflexivity. }
  split; [done|]. intros now msgs Hmsgs.
  eapply loadCompactedContext_fallback; [done | exact Hnull | by left].
Qed.

Lemma C2_witness_truncated_write :
  unusable notJson demoFs (lit "torn") /\
  returns (loadStoredSummaries demoFs (lit "torn")) /\
  loadStoredSummaries demoFs (lit "torn") = Return JNull /\
  loadCompactedContext demoFs demoNow (lit "torn") demoMessages
    = Return (unsummarized demoMessages).
Proof.
  assert (unusable notJson demoFs (lit "torn")) as Hbad.
  { right. right. exists doc_truncated. split; [vm_compute; reflexivity|].
    exists SyntaxError. vm_compute. reflexivity. }
  destruct (C2_unusable_store_is_absent demoFs (lit "torn")) as [Hret Habs].
  destruct (Habs Hbad) as [Hnull Hall].
  split; [exact Hbad|]. split; [exact Hret|]. split; [exact Hnull|].
  apply Hall. repeat constructor.
Defined.

(** The other two cases at concrete sessions: a file that cannot be read
    and a file that does not exist. *)
Example unreadable_and_missing_are_absent :
  loadStoredSummaries demoFs (lit "locked") = Return JNull /\
  loadStoredSummaries demoFs (lit "fresh") = Return JNull.
Proof. split; vm_compute; reflexivity. Qed.

(** ** C9: the summarized flag and the summary count *)

(** C9.  Whenever [loadCompactedContext] returns, [wasSummarized] is true
    exactly when [summaryPrefix] is not the empty string, and when it is
    true [summaryCount] is the number of stored summaries, all of them and
    not only those the formatting keeps.  It does return on every readable
    message sequence when the store holds nothing or a [SummaryFile]. *)
Theorem C9_flag_and_count `{Host}
    (fs : FileSystem) (now : Z) (sid : jsstring) (msgs : list JsVal) :
  (readable msgs ->
   (loadStoredSummaries fs sid = Return JNull \/
    exists sf, loadStoredSummaries fs sid = Return (ofSummaryFile sf)) ->
   returns (loadCompactedContext fs now sid msgs)) /\
  (forall ctx, loadCompactedContext fs now sid msgs = Return ctx ->
     (wasSummarized ctx = true <-> summaryPrefix ctx <> []) /\
     (wasSummarized ctx = true ->
      exists file stored,
        loadStoredSummaries fs sid = Return file /\
        getProp file k_summaries = Return (JArr stored) /\
        summaryCount ctx = JNum (numOfNat (length stored)))).
Proof.
  split.
  - intros Hmsgs [Hnull | (sf & Hsf)].
    + eexists. eapply loadCompactedContext_fallback; [done | exact Hnull | by left].
    + destruct (summaries sf) as [|s ss] eqn:Hss.
      * eexists. eapply loadCompactedContext_fallback; [done | exact Hsf |].
        right. eexists. split; [reflexivity|]. simpl. by rewrite Hss.
      * eexists. apply loadCompactedContext_summarized; [done | done |].
        by rewrite Hss.
  - intros ctx Hctx.
    apply loadCompactedContext_inv in Hctx as (file & Hfile & Hcases).
    destruct Hcases as [-> | (l & Hl & Hss & _ & Hne & _ & Hflag & Hcount)].
    + simpl. split; [split; [discriminate | congruence] | discriminate].
    + split; [by split|]. intros _. by exists file, l.
Qed.

Lemma C9_witness_seven_summaries :
  exists ctx,
    loadCompactedContext demoFs demoNow (lit "seven") demoMessages = Return ctx /\
    wasSummarized ctx = true /\
    summaryPrefix ctx <> [] /\
    summaryCount ctx = JNum (numOfZ 7) /\
    exists file stored,
      loadStoredSummaries demoFs (lit "seven") = Return file /\
      getProp file k_summaries = Return (JArr stored) /\
      summaryCount ctx = JNum (numOfNat (length stored)).
Proof.
  destruct (C9_flag_and_count demoFs demoNow (lit "seven") demoMessages)
    as [Hret Hinv].
  destruct Hret as [ctx Hctx].
  { repeat constructor. }
  { right. exists (sampleFile sevenSummaries). vm_compute. reflexivity. }
  exists ctx. split; [exact Hctx|].
  destruct (Hinv ctx Hctx) as [Hiff Hcount].
  assert (wasSummarized ctx = true) as Hflag.
  { revert Hctx. vm_compute. intros [= <-]. reflexivity. }
  split; [exact Hflag|]. split; [by apply Hiff|].
  split; [|by apply Hcount].
  revert Hctx. vm_compute. intros [= <-]. reflexivity.
Defined.

(** ** C5, C3: the recency window *)

Section WindowFacts.
Context `{Host}.

Lemma elem_of_recentMessages (fs : FileSystem) (now : Z) (sid : jsstring)
    (msgs : list JsVal) (ctx : CompactedContext) (m : JsVal) :
  loadCompactedContext fs now sid msgs = Return ctx ->
  wasSummarized ctx = true ->
  m ∈ recentMessages ctx <-> m ∈ msgs /\ keptBy (cutoffAt now) m = true.
Proof.
  intros Hctx Hflag.
  apply loadCompactedContext_inv in Hctx as (file & _ & Hcases).
  destruct Hcases as [-> | (l & _ & _ & _ & _ & -> & _)]; [discriminate|].
  rewrite !list_elem_of_In. apply filter_In.
Qed.

Lemma cutoffAt_in_range (now : Z) :
  - maxTime <= now - KEEP_RECENT_MINUTES * 60 * 1000 <= maxTime ->
  cutoffAt now = Some (now - KEEP_RECENT_MINUTES * 60 * 1000).
Proof. intros Hrange. by apply TimeClip_in_range. Qed.

(** What does hold of C3: a message from which no timestamp is extracted
    is kept, whatever the window. *)
Lemma untimed_message_is_kept (fs : FileSystem) (now : Z) (sid : jsstring)
    (msgs : list JsVal) (ctx : CompactedContext) (m : JsVal) :
  loadCompactedContext fs now sid msgs = Return ctx ->
  m ∈ msgs ->
  extractTimestamp m = Return None ->
  m ∈ recentMessages ctx.
Proof.
  intros Hctx Hm Hts.
  destruct (wasSummarized ctx) eqn:Hflag.
  - apply (elem_of_recentMessages _ _ _ _ _ _ Hctx Hflag).
    split; [done|]. unfold keptBy. by rewrite Hts.
  - apply loadCompactedContext_inv in Hctx as (file & _ & Hcases).
    destruct Hcases as [-> | (l & _ & _ & _ & _ & _ & Htrue & _)]; [done|].
    congruence.
Qed.

End WindowFacts.

(** C5.  With summaries in the store, a message with a valid extracted
    timestamp [t] is among [recentMessages] exactly when [t] is at or after
    the cutoff, [now] minus the window of 60 minutes: a message stamped
    exactly at the cutoff is kept and one stamped before it is not.  The
    cutoff is assumed to be a valid date, as it is for the time of any
    real clock. *)
Theorem C5_window_boundary_is_inclusive `{Host}
    (fs : FileSystem) (now : Z) (sid : jsstring) (msgs : list JsVal)
    (sf : SummaryFile) :
  readable msgs ->
  loadStoredSummaries fs sid = Return (ofSummaryFile sf) ->
  summaries sf <> [] ->
  - maxTime <= now - KEEP_RECENT_MINUTES * 60 * 1000 <= maxTime ->
  exists ctx,
    loadCompactedContext fs now sid msgs = Return ctx /\
    wasSummarized ctx = true /\
    forall m t, m ∈ msgs ->
      extractTimestamp m = Return (Some (Some t)) ->
      (m ∈ recentMessages ctx <-> now - KEEP_RECENT_MINUTES * 60 * 1000 <= t).
Proof.
  intros Hmsgs Hfile Hne Hrange.
  eexists. split; [by apply loadCompactedContext_summarized|].
  split; [reflexivity|]. intros m t Hm Hts. simpl.
  rewrite list_elem_of_In, filter_In, <- list_elem_of_In.
  unfold keptBy. rewrite Hts. simpl.
  rewrite (cutoffAt_in_range _ Hrange). simpl.
  rewrite Z.leb_le. tauto.
Qed.

Lemma C5_witness_boundary :
  exists ctx,
    loadCompactedContext demoFs demoNow (lit "three")
      [msgAtCutoff; msgBeforeCutoff] = Return ctx /\
    wasSummarized ctx = true /\
    recentMessages ctx = [msgAtCutoff] /\
    forall m t, m ∈ [msgAtCutoff; msgBeforeCutoff] ->
      extractTimestamp m = Return (Some (Some t)) ->
      (m ∈ recentMessages ctx <-> demoNow - KEEP_RECENT_MINUTES * 60 * 1000 <= t).
Proof.
  destruct (C5_window_boundary_is_inclusive demoFs demoNow (lit "three")
              [msgAtCutoff; msgBeforeCutoff] (sampleFile threeSummaries))
    as (ctx & Hctx & Hflag & Hiff).
  - repeat constructor.
  - vm_compute. reflexivity.
  - discriminate.
  - vm_compute. split; discriminate.
  - exists ctx. split; [exact Hctx|]. split; [exact Hflag|].
    split; [|exact Hiff].
    revert Hctx. vm_compute. intros [= <-]. reflexivity.
Defined.

(** C3 fails where the timestamp field holds a [Date] that is invalid:
    [extractTimestamp] returns that date without testing it, the comparison
    with the cutoff is false, and the message is dropped.  This holds on
    every call that uses summaries. *)
Theorem C3_invalid_date_is_dropped `{Host}
    (fs : FileSystem) (now : Z) (sid : jsstring) (msgs : list JsVal)
    (ctx : CompactedContext) (props : list (jsstring * JsVal)) :
  loadCompactedContext fs now sid msgs = Return ctx ->
  wasSummarized ctx = true ->
  JObj props ∈ msgs ->
  field props k_timestamp = JDate None ->
  extractTimestamp (JObj props) = Return (Some None) /\
  JObj props ∉ recentMessages ctx.
Proof.
  intros Hctx Hflag Hin Hfield.
  assert (extractTimestamp (JObj props) = Return (Some None)) as Hts.
  { unfold extractTimestamp. simpl. fold (field props k_timestamp).
    by rewrite Hfield. }
  split; [done|].
  rewrite (elem_of_recentMessages _ _ _ _ _ _ Hctx Hflag).
  unfold keptBy. rewrite Hts. simpl. intros [_ Hkept]. discriminate.
Qed.

Lemma C3_witness_invalid_date :
  exists ctx,
    loadCompactedContext demoFs demoNow (lit "three")
      [msgUntimed; msgInvalidDate] = Return ctx /\
    wasSummarized ctx = true /\
    recentMessages ctx = [msgUntimed] /\
    extractTimestamp msgInvalidDate = Return (Some None) /\
    msgInvalidDate ∉ recentMessages ctx.
Proof.
  assert (exists ctx, loadCompactedContext demoFs demoNow (lit "three")
            [msgUntimed; msgInvalidDate] = Return ctx) as [ctx Hctx].
  { eexists. vm_compute. reflexivity. }
  assert (wasSummarized ctx = true /\ recentMessages ctx = [msgUntimed])
    as [Hflag Hrecent].
  { revert Hctx. vm_compute. intros [= <-]. split; reflexivity. }
  exists ctx. split; [exact Hctx|]. split; [exact Hflag|].
  split; [exact Hrecent|].
  apply (C3_invalid_date_is_dropped demoFs demoNow (lit "three")
           [msgUntimed; msgInvalidDate] ctx
           [(k_timestamp, JDate None); (k_content, JStr (lit "invalid date"))]).
  - exact Hctx.
  - exact Hflag.
  - apply list_elem_of_further, list_elem_of_here.
  - reflexivity.
Defined.

(** ** C6: which candidate field gives the timestamp *)


Section CandidateFacts.
Context `{Host}.


End CandidateFacts.



(** ** C4: the formatted block *)

(** What does hold of C4: no summaries give the empty string; otherwise
    the block is the header, one line per kept summary joined by newlines,
    and the footer, where the kept summaries are the last six of the stored
    order, in that order, [min n 6] of them. *)
Lemma formatSummariesAsContext_cap `{Host} (ss : list StoredSummary) :
  formatSummariesAsContext (JArr (map ofStoredSummary ss)) =
    Return (match ss with [] => [] | _ => blockOf marker (lastSix ss) end) /\
  length (map (lineOf marker) (lastSix ss)) = Nat.min (length ss) 6 /\
  take (length ss - 6) ss ++ lastSix ss = ss.
Proof.
  split; [apply formatSummariesAsContext_typed|].
  split; [by rewrite length_map, lastSix_length | apply lastSix_suffix].
Qed.

Lemma blockOf_marker_matters (mk mk' : jsstring) (c c' : codeunit)
    (rest rest' : jsstring) (kept : list StoredSummary) :
  mk = c :: rest -> mk' = c' :: rest' -> c <> c' -> kept <> [] ->
  blockOf mk kept <> blockOf mk' kept.
Proof.
  intros -> -> Hc Hkept Heq. unfold blockOf in Heq.
  apply app_inv_head in Heq.
  destruct kept as [|s kept]; [done|].
  destruct kept as [|s' kept]; simpl in Heq; injection Heq as Heq _; done.
Qed.

(** C4 fails on the form of the summary lines: each line opens with the
    three code units U+00E2, U+20AC, U+00A2 that the literal of the source
    holds (the UTF-8 bytes of the bullet U+2022 read as Windows-1252), not
    with the bullet.  The block is never the one the claim describes. *)
Theorem C4_lines_do_not_open_with_bullet `{Host} (ss : list StoredSummary) :
  ss <> [] ->
  formatSummariesAsContext (JArr (map ofStoredSummary ss)) =
    Return (blockOf marker (lastSix ss)) /\
  blockOf marker (lastSix ss) <> blockOf bullet (lastSix ss).
Proof.
  intros Hss. split.
  - rewrite formatSummariesAsContext_typed. by destruct ss.
  - eapply blockOf_marker_matters; [reflexivity | reflexivity | discriminate |].
    by apply lastSix_nonempty.
Qed.

Lemma C4_witness_one_summary :
  formatSummariesAsContext
    (JArr (map ofStoredSummary [sampleSummary "09:00-10:00" "planned the trip"])) =
    Return (header ++ marker ++ lit " 09:00-10:00: planned the trip" ++ footer) /\
  header ++ marker ++ lit " 09:00-10:00: planned the trip" ++ footer <>
  header ++ bullet ++ lit " 09:00-10:00: planned the trip" ++ footer.
Proof.
  apply (C4_lines_do_not_open_with_bullet
           [sampleSummary "09:00-10:00" "planned the trip"]).
  discriminate.
Defined.

(** The cap at seven stored summaries: six lines, the first stored summary
    left out. *)
Example seven_summaries_give_six_lines :
  formatSummariesAsContext (JArr (map ofStoredSummary sevenSummaries)) =
    Return (blockOf marker (drop 1 sevenSummaries)) /\
  length (map (lineOf marker) (drop 1 sevenSummaries)) = 6%nat.
Proof. split; reflexivity. Qed.

(** ** C7, C8, C10: the token estimate *)

Lemma Qceiling_quarter (c : Z) : Qceiling (inject_Z c / 4) = (c + 3) / 4.
Proof.
  unfold Qceiling, Qfloor, Qdiv, Qmult, Qinv, Qopp, inject_Z. simpl.
  change (Z.pos (1 * 4)) with 4. rewrite Z.mul_1_r.
  Z.to_euclidean_division_equations. lia.
Qed.

Section EstimateFacts.
Context `{Host}.

Lemma sumChars_cons (f : JsVal -> Completion Z) (x : JsVal) (l : list JsVal) :
  sumChars f (x :: l) = (a ← f x; b ← sumChars f l; Return (a + b)).
Proof. reflexivity. Qed.

Lemma sumChars_nonneg (f : JsVal -> Completion Z) (l : list JsVal) (total : Z) :
  (forall x a, f x = Return a -> 0 <= a) ->
  sumChars f l = Return total -> 0 <= total.
Proof.
  intros Hf. revert total. induction l as [|x l IH]; intros total; simpl.
  - intros [= <-]. lia.
  - intros Hsum. apply bind_returns in Hsum as (a & Ha & Hsum).
    apply bind_returns in Hsum as (b & Hb & Hsum). injection Hsum as <-.
    specialize (Hf x a Ha). specialize (IH b Hb). lia.
Qed.

Lemma blockChars_nonneg (block : JsVal) (a : Z) :
  blockChars block = Return a -> 0 <= a.
Proof.
  unfold blockChars.
  destruct block as [| |b|n|s|tv|l|props]; simpl;
    try (intros [= <-]; lia).
  - destruct b; intros [= <-]; lia.
  - destruct n; try destruct (negb _); intros [= <-]; lia.
  - destruct (assoc k_text props) as [t|]; simpl; [|intros [= <-]; lia].
    intros Hs. apply bind_returns in Hs as (s & _ & Hs).
    injection Hs as <-. lia.
Qed.

Lemma messageChars_nonneg (msg : JsVal) (a : Z) :
  messageChars msg = Return a -> 0 <= a.
Proof.
  unfold messageChars. intros Ha.
  apply bind_returns in Ha as (content & _ & Ha).
  destruct content as [| |?|?|s|?|blocks|?]; try (injection Ha as <-; lia).
  eapply sumChars_nonneg; [apply blockChars_nonneg | exact Ha].
Qed.

(** Removing and reordering elements does not raise a sum that returns. *)
Lemma sumChars_submseteq (f : JsVal -> Completion Z) (sub sup : list JsVal) :
  (forall x a, f x = Return a -> 0 <= a) ->
  sub ⊆+ sup ->
  forall total, sumChars f sup = Return total ->
  exists part, sumChars f sub = Return part /\ part <= total.
Proof.
  intros Hf. induction 1 as [|x l1 l2 _ IH|x y l|x l1 l2 _ IH|l1 l2 l3 _ IH1 _ IH2];
    intros total; simpl.
  - intros [= <-]. by exists 0.
  - intros Hsum. apply bind_returns in Hsum as (a & Ha & Hsum).
    apply bind_returns in Hsum as (b & Hb & Hsum). injection Hsum as <-.
    destruct (IH b Hb) as (part & Hpart & Hle).
    exists (a + part). rewrite Ha, Hpart. split; [reflexivity | lia].
  - intros Hsum. apply bind_returns in Hsum as (a & Ha & Hsum).
    apply bind_returns in Hsum as (r & Hr & Hsum). injection Hsum as <-.
    apply bind_returns in Hr as (b & Hb & Hr).
    apply bind_returns in Hr as (c & Hc & Hr). injection Hr as <-.
    exists (b + (a + c)). rewrite Hb, Ha, Hc. split; [reflexivity | lia].
  - intros Hsum. apply bind_returns in Hsum as (a & Ha & Hsum).
    apply bind_returns in Hsum as (b & Hb & Hsum). injection Hsum as <-.
    destruct (IH b Hb) as (part & Hpart & Hle).
    exists part. split; [done|]. specialize (Hf x a Ha). lia.
  - intros Hsum. destruct (IH2 total Hsum) as (mid & Hmid & Hle2).
    destruct (IH1 mid Hmid) as (part & Hpart & Hle1).
    exists part. split; [done | lia].
Qed.

End EstimateFacts.

Section EstimateShapes.
Context `{Host}.

Lemma estimateTokens_ceiling (msgs : list JsVal) (k : Z) :
  estimateTokens msgs = Return k ->
  exists chars, sumChars messageChars msgs = Return chars /\
    0 <= chars /\ 0 <= k /\ 4 * (k - 1) < chars <= 4 * k.
Proof.
  unfold estimateTokens. intros Hk.
  apply bind_returns in Hk as (chars & Hchars & Hk). injection Hk as <-.
  exists chars. split; [done|].
  pose proof (sumChars_nonneg _ _ _ messageChars_nonneg Hchars) as Hpos.
  rewrite Qceiling_quarter. split; [done|].
  Z.to_euclidean_division_equations. lia.
Qed.

Lemma messageChars_string (props : list (jsstring * JsVal)) (s : jsstring) :
  field props k_content = JStr s ->
  messageChars (JObj props) = Return (Z.of_nat (length s)).
Proof.
  intros Hc. unfold messageChars, getPropOpt. simpl.
  fold (field props k_content). by rewrite Hc.
Qed.

Lemma messageChars_blocks (props : list (jsstring * JsVal)) (blocks : list JsVal) :
  field props k_content = JArr blocks ->
  messageChars (JObj props) = sumChars blockChars blocks.
Proof.
  intros Hc. unfold messageChars, getPropOpt. simpl.
  fold (field props k_content). by rewrite Hc.
Qed.

Lemma messageChars_other (msg content : JsVal) :
  getPropOpt msg k_content = Return content ->
  (forall s, content <> JStr s) -> (forall l, content <> JArr l) ->
  messageChars msg = Return 0.
Proof.
  intros Hc Hs Hl. unfold messageChars. rewrite Hc. simpl.
  destruct content; try done; [by destruct (Hs s) | by destruct (Hl elems)].
Qed.

Lemma getPropOpt_returns (msg : JsVal) (k : jsstring) :
  returns (getPropOpt msg k).
Proof.
  unfold getPropOpt. destruct (isNullish msg) eqn:Hn; [by eexists|].
  by apply getProp_returns.
Qed.

Lemma blockChars_string (s : jsstring) :
  blockChars (JStr s) = Return (Z.of_nat (length s)).
Proof. reflexivity. Qed.

Lemma blockChars_text (props : list (jsstring * JsVal)) (v : JsVal) :
  assoc k_text props = Some v ->
  blockChars (JObj props) =
  s ← ToString (coalesce v (JStr []));
  Return (Z.of_nat (length s)).
Proof. intros Hv. unfold blockChars. simpl. by rewrite Hv. Qed.

Lemma blockChars_other (block : JsVal) :
  (forall s, block <> JStr s) ->
  (forall props, block = JObj props -> assoc k_text props = None) ->
  blockChars block = Return 0.
Proof.
  intros Hs Hobj. unfold blockChars.
  destruct block as [| |b|n|s|tv|l|props]; simpl; try done.
  - by destruct b.
  - by destruct n; try destruct (negb _).
  - by destruct (Hs s).
  - by rewrite (Hobj props eq_refl).
Qed.

Lemma blockChars_returns (block : JsVal) :
  printableText block -> returns (blockChars block).
Proof.
  intros Hp. destruct block as [| |b|n|s|tv|l|props];
    try (eexists; reflexivity).
  - destruct b; eexists; reflexivity.
  - destruct n; simpl; unfold blockChars; simpl;
      try destruct (negb _); eexists; reflexivity.
  - destruct (assoc k_text props) as [v|] eqn:Hv.
    + rewrite (blockChars_text _ _ Hv).
      destruct (Hp props v eq_refl Hv) as [s ->]. by eexists.
    + unfold blockChars. simpl. rewrite Hv. by eexists.
Qed.

Lemma sumChars_returns (f : JsVal -> Completion Z) (l : list JsVal) :
  Forall (fun x => returns (f x)) l -> returns (sumChars f l).
Proof.
  induction 1 as [|x l [a Ha] _ [b Hb]]; simpl; [by eexists|].
  rewrite Ha, Hb. by eexists.
Qed.

(** What does hold of C7's last part: the estimate returns whenever every
    [text] of a content block has a string rendering. *)
Lemma estimateTokens_returns (msgs : list JsVal) :
  Forall printableContent msgs -> returns (estimateTokens msgs).
Proof.
  intros Hmsgs. unfold estimateTokens.
  assert (returns (sumChars messageChars msgs)) as [chars ->]; [|by eexists].
  apply sumChars_returns. eapply Forall_impl; [exact Hmsgs|].
  intros msg Hmsg. unfold messageChars.
  destruct (getPropOpt_returns msg k_content) as [content Hcontent].
  rewrite Hcontent. simpl.
  destruct content as [| |?|?|s|?|blocks|?]; try (eexists; reflexivity).
  apply sumChars_returns. eapply Forall_impl; [exact (Hmsg _ Hcontent)|].
  intros block. apply blockChars_returns.
Qed.

End EstimateShapes.

(** C7 fails on its last part: the estimate throws when the [text] of a
    content block is an object that has no string rendering.  In
    [unprintableMessage] that object has an own [toString] property that
    is not a function, and [String] throws a [TypeError] on it. *)
Theorem C7_unprintable_text_throws `{Host} (before after : list JsVal) :
  estimateTokens [unprintableMessage] = Throw TypeError /\
  (returns (estimateTokens before) ->
   estimateTokens (before ++ unprintableMessage :: after) = Throw TypeError).
Proof.
  split; [reflexivity|].
  unfold estimateTokens. intros [k Hk].
  apply bind_returns in Hk as (chars & Hchars & _).
  assert (sumChars messageChars (before ++ unprintableMessage :: after)
          = Throw TypeError) as ->; [|reflexivity].
  clear k. revert chars Hchars.
  induction before as [|m before IH]; intros chars; simpl; [done|].
  intros Hsum. apply bind_returns in Hsum as (a & Ha & Hsum).
  apply bind_returns in Hsum as (b & Hb & _).
  rewrite Ha. simpl. by rewrite (IH b Hb).
Qed.

Lemma C7_witness_after_plain_messages :
  estimateTokens [unprintableMessage] = Throw TypeError /\
  estimateTokens (demoMessages ++ unprintableMessage :: demoMessages)
    = Throw TypeError.
Proof.
  destruct (C7_unprintable_text_throws demoMessages demoMessages)
    as [Hone Hmany].
  split; [exact Hone|]. apply Hmany.
  eexists. vm_compute. reflexivity.
Defined.

(** C8.  A message sequence obtained by removing messages from another
    has an estimate no greater than the estimate of that other sequence,
    which is taken to return. *)
Theorem C8_estimate_is_monotone `{Host} (sub sup : list JsVal) (total : Z) :
  sublist sub sup ->
  estimateTokens sup = Return total ->
  exists part, estimateTokens sub = Return part /\ part <= total.
Proof.
  intros Hsub. unfold estimateTokens. intros Hsup.
  apply bind_returns in Hsup as (chars & Hchars & Hsup). injection Hsup as <-.
  destruct (sumChars_submseteq messageChars sub sup messageChars_nonneg
              (sublist_submseteq _ _ Hsub) chars Hchars) as (part & -> & Hle).
  eexists. split; [reflexivity|].
  rewrite !Qceiling_quarter. apply Z.div_le_mono; lia.
Qed.

Lemma C8_witness_two_of_four :
  exists part,
    estimateTokens [msgUntimed; msgBeforeCutoff] = Return part /\ part <= 14.
Proof.
  apply (C8_estimate_is_monotone [msgUntimed; msgBeforeCutoff] demoMessages 14).
  - apply sublist_skip, sublist_cons, sublist_skip, sublist_nil_l.
  - vm_compute. reflexivity.
Defined.

(** C10.  A content block that is an object with a [text] property adds
    the length of the string rendering of that property's value, whatever
    the type of the value, and nothing when the value is [null] or
    [undefined]; a numeric text [1234] adds 4. *)
Theorem C10_text_is_rendered_with_String `{Host}
    (props : list (jsstring * JsVal)) (v : JsVal) :
  assoc k_text props = Some v ->
  (isNullish v = true ->
   blockChars (JObj props) = Return 0 /\
   estimateTokens [blocksMessage [JObj props]] = Return 0) /\
  (forall s, isNullish v = false -> ToString v = Return s ->
   blockChars (JObj props) = Return (Z.of_nat (length s)) /\
   estimateTokens [blocksMessage [JObj props]]
     = Return (Qceiling (inject_Z (Z.of_nat (length s)) / 4))).
Proof.
  intros Hv.
  assert (forall s, ToString (coalesce v (JStr [])) = Return s ->
    blockChars (JObj props) = Return (Z.of_nat (length s)) /\
    estimateTokens [blocksMessage [JObj props]]
      = Return (Qceiling (inject_Z (Z.of_nat (length s)) / 4))) as Hboth.
  { intros s Hs.
    assert (blockChars (JObj props) = Return (Z.of_nat (length s))) as Hblock.
    { by rewrite (blockChars_text _ _ Hv), Hs. }
    split; [exact Hblock|].
    unfold estimateTokens. rewrite sumChars_cons.
    change (messageChars (blocksMessage [JObj props]))
      with (sumChars blockChars [JObj props]).
    rewrite sumChars_cons, Hblock. simpl.
    by rewrite !Z.add_0_r. }
  split.
  - intros Hnull. apply (Hboth []). unfold coalesce. by rewrite Hnull.
  - intros s Hnull Hs. apply Hboth. unfold coalesce. by rewrite Hnull.
Qed.

Lemma C10_witness_numeric_text :
  blockChars (JObj [(k_text, JNum (numOfZ 1234))]) = Return 4 /\
  estimateTokens [blocksMessage [JObj [(k_text, JNum (numOfZ 1234))]]] = Return 1 /\
  blockChars (JObj [(k_text, JNull)]) = Return 0 /\
  blockChars (JObj [(k_text, JUndefined)]) = Return 0.
Proof.
  destruct (C10_text_is_rendered_with_String
              [(k_text, JNum (numOfZ 1234))] (JNum (numOfZ 1234)) eq_refl)
    as [_ Hnum].
  destruct (Hnum (lit "1234") eq_refl eq_refl) as [Hblock Hest].
  destruct (C10_text_is_rendered_with_String
              [(k_text, JNull)] JNull eq_refl) as [Hnull _].
  destruct (C10_text_is_rendered_with_String
              [(k_text, JUndefined)] JUndefined eq_refl) as [Hundef _].
  split; [exact Hblock|]. split; [exact Hest|].
  split; [apply Hnull | apply Hundef]; reflexivity.
Defined.

(** * Further properties of the loader *)

(** ** What can be thrown *)

Lemma onlyTypeError_Return {A} (a : A) : onlyTypeError (Return a).
Proof. intros e. discriminate. Qed.

Lemma onlyTypeError_bind {A B} (m : Completion A) (f : A -> Completion B) :
  onlyTypeError m -> (forall a, m = Return a -> onlyTypeError (f a)) ->
  onlyTypeError (m ≫= f).
Proof.
  intros Hm Hf e. destruct m as [a|e']; simpl.
  - by apply Hf.
  - intros [= <-]. by apply Hm.
Qed.

Lemma onlyTypeError_sequence {A} (l : list (Completion A)) :
  Forall onlyTypeError l -> onlyTypeError (sequence l).
Proof.
  induction 1 as [|c l Hc _ IH]; simpl; [apply onlyTypeError_Return|].
  destruct c as [a|e']; [|intros e [= <-]; by apply Hc].
  destruct (sequence l) as [r|e']; [apply onlyTypeError_Return|].
  intros e [= <-]. by apply IH.
Qed.

Lemma onlyTypeError_getProp (v : JsVal) (k : jsstring) :
  onlyTypeError (getProp v k).
Proof. intros e. destruct v; simpl; congruence. Qed.

Section ThrownFacts.
Context `{Host}.

Lemma onlyTypeError_ToString : forall v : JsVal, onlyTypeError (ToString v).
Proof.
  fix IH 1. intros v e.
  destruct v as [| |b|n|s|tv|l|props]; simpl; try discriminate.
  - destruct b; discriminate.
  - destruct tv; discriminate.
  - assert (onlyTypeError
      (sequence (map (fun x => if isNullish x then Return [] else ToString x) l)))
      as Hseq.
    { apply onlyTypeError_sequence.
      induction l as [|a l IHl]; simpl; constructor; [|exact IHl].
      destruct (isNullish a); [apply onlyTypeError_Return | apply IH]. }
    destruct (sequence _) as [parts|e'] eqn:Hparts; [discriminate|].
    intros [= <-]. by apply Hseq.
  - destruct (assoc k_toString props); [congruence | discriminate].
Qed.

Lemma onlyTypeError_extractTimestamp (msg : JsVal) :
  onlyTypeError (extractTimestamp msg).
Proof.
  unfold extractTimestamp.
  apply onlyTypeError_bind; [apply onlyTypeError_getProp|]. intros a _.
  apply onlyTypeError_bind; [|intros; apply onlyTypeError_Return].
  destruct (isNullish a); [|apply onlyTypeError_Return].
  apply onlyTypeError_bind; [apply onlyTypeError_getProp|]. intros b _.
  destruct (isNullish b);
    [apply onlyTypeError_getProp | apply onlyTypeError_Return].
Qed.

Lemma onlyTypeError_filterRecent (cutoffTime : TimeValue) (msgs : list JsVal) :
  onlyTypeError (filterRecent cutoffTime msgs).
Proof.
  induction msgs as [|m msgs IH]; simpl; [apply onlyTypeError_Return|].
  apply onlyTypeError_bind; [apply onlyTypeError_extractTimestamp|]. intros ts _.
  apply onlyTypeError_bind; [exact IH|]. intros; apply onlyTypeError_Return.
Qed.

Lemma onlyTypeError_summaryLine (s : JsVal) : onlyTypeError (summaryLine s).
Proof.
  unfold summaryLine.
  apply onlyTypeError_bind; [apply onlyTypeError_getProp|]. intros p _.
  apply onlyTypeError_bind; [apply onlyTypeError_ToString|]. intros ps _.
  apply onlyTypeError_bind; [apply onlyTypeError_getProp|]. intros t _.
  apply onlyTypeError_bind; [apply onlyTypeError_ToString|].
  intros; apply onlyTypeError_Return.
Qed.

Lemma onlyTypeError_format (v : JsVal) :
  onlyTypeError (formatSummariesAsContext v).
Proof.
  unfold formatSummariesAsContext.
  apply onlyTypeError_bind; [apply onlyTypeError_getProp|]. intros len _.
  destruct (strictEqZero len); [apply onlyTypeError_Return|].
  apply onlyTypeError_bind.
  { intros e. destruct v; simpl; congruence. }
  intros recent _. apply onlyTypeError_bind; [|intros; apply onlyTypeError_Return].
  destruct recent as [| |?|?|?|?|l|?]; simpl; try (intros e; congruence).
  apply onlyTypeError_sequence. apply Forall_forall. intros c Hc.
  apply list_elem_of_In, in_map_iff in Hc as (x & <- & _).
  apply onlyTypeError_summaryLine.
Qed.

Lemma onlyTypeError_blockChars (block : JsVal) : onlyTypeError (blockChars block).
Proof.
  unfold blockChars.
  destruct block as [| |b|n|s|tv|l|props]; simpl;
    try apply onlyTypeError_Return.
  - destruct b; apply onlyTypeError_Return.
  - destruct n; try destruct (negb _); apply onlyTypeError_Return.
  - destruct (assoc k_text props) as [t|]; simpl; [|apply onlyTypeError_Return].
    apply onlyTypeError_bind; [apply onlyTypeError_ToString|].
    intros; apply onlyTypeError_Return.
Qed.

Lemma onlyTypeError_sumChars (f : JsVal -> Completion Z) (l : list JsVal) :
  (forall x, onlyTypeError (f x)) -> onlyTypeError (sumChars f l).
Proof.
  intros Hf. induction l as [|x l IH]; simpl; [apply onlyTypeError_Return|].
  apply onlyTypeError_bind; [apply Hf|]. intros a _.
  apply onlyTypeError_bind; [exact IH|]. intros; apply onlyTypeError_Return.
Qed.

End ThrownFacts.

Lemma onlyTypeError_loadCompactedContext `{Host}
    (fs : FileSystem) (now : Z) (sid : jsstring) (msgs : list JsVal) :
  onlyTypeError (loadCompactedContext fs now sid msgs).
Proof.
  unfold loadCompactedContext.
  apply onlyTypeError_bind.
  { intros e He. destruct (loadStoredSummaries_returns fs sid) as [v Hv].
    congruence. }
  intros file _. simpl.
  apply onlyTypeError_bind; [apply onlyTypeError_filterRecent|]. intros kept _.
  apply onlyTypeError_bind.
  { destruct (negb _); [apply onlyTypeError_Return|].
    apply onlyTypeError_bind; [apply onlyTypeError_getProp|]. intros ss _.
    apply onlyTypeError_bind; [apply onlyTypeError_getProp|].
    intros; apply onlyTypeError_Return. }
  intros none _. destruct none; [apply onlyTypeError_Return|].
  apply onlyTypeError_bind; [apply onlyTypeError_getProp|]. intros ss _.
  apply onlyTypeError_bind; [apply onlyTypeError_format|]. intros prefix _.
  apply onlyTypeError_bind; [apply onlyTypeError_getProp|].
  intros; apply onlyTypeError_Return.
Qed.

Lemma onlyTypeError_messageChars `{Host} (msg : JsVal) :
  onlyTypeError (messageChars msg).
Proof.
  unfold messageChars.
  apply onlyTypeError_bind.
  { intros e. unfold getPropOpt. destruct msg; simpl; congruence. }
  intros content _.
  destruct content; try apply onlyTypeError_Return.
  apply onlyTypeError_sumChars, onlyTypeError_blockChars.
Qed.

Lemma onlyTypeError_estimateTokens `{Host} (msgs : list JsVal) :
  onlyTypeError (estimateTokens msgs).
Proof.
  unfold estimateTokens.
  apply onlyTypeError_bind; [|intros; apply onlyTypeError_Return].
  apply onlyTypeError_sumChars, onlyTypeError_messageChars.
Qed.

(** X1.  Whatever the store holds, a file-system error or a JSON syntax
    error never leaves [loadCompactedContext], and [estimateTokens] throws
    nothing else either: the only error either can throw is a
    [TypeError]. *)
Theorem only_TypeError_escapes `{Host}
    (fs : FileSystem) (now : Z) (sid : jsstring) (msgs : list JsVal) :
  onlyTypeError (loadCompactedContext fs now sid msgs) /\
  onlyTypeError (estimateTokens msgs).
Proof.
  split;
    [apply onlyTypeError_loadCompactedContext | apply onlyTypeError_estimateTokens].
Qed.

Lemma only_TypeError_escapes_witness :
  exists e,
    loadCompactedContext demoFs demoNow (lit "shape") demoMessages = Throw e /\
    e = TypeError.
Proof.
  assert (exists e, loadCompactedContext demoFs demoNow (lit "shape") demoMessages
                    = Throw e) as [e He].
  { eexists. vm_compute. reflexivity. }
  exists e. split; [exact He|].
  exact (proj1 (only_TypeError_escapes demoFs demoNow (lit "shape") demoMessages)
           e He).
Defined.

(** ** Messages that cannot be read *)

Section UnreadableFacts.
Context `{Host}.

Lemma extractTimestamp_returns_inv (msg : JsVal) (ts : option TimeValue) :
  extractTimestamp msg = Return ts -> isNullish msg = false.
Proof.
  unfold extractTimestamp. intros Hts.
  apply bind_returns in Hts as (a & Ha & _).
  by apply getProp_returns_inv in Ha.
Qed.

Lemma filterRecent_returns_readable (cutoffTime : TimeValue)
    (msgs kept : list JsVal) :
  filterRecent cutoffTime msgs = Return kept -> readable msgs.
Proof.
  revert kept. induction msgs as [|m msgs IH]; intros kept; simpl.
  - intros _. constructor.
  - intros Hk. apply bind_returns in Hk as (ts & Hts & Hk).
    apply bind_returns in Hk as (kept' & Hkept' & _).
    constructor; [by eapply extractTimestamp_returns_inv | by eapply IH].
Qed.

Lemma loadCompactedContext_returns_readable (fs : FileSystem) (now : Z)
    (sid : jsstring) (msgs : list JsVal) (ctx : CompactedContext) :
  loadCompactedContext fs now sid msgs = Return ctx -> readable msgs.
Proof.
  unfold loadCompactedContext. intros Hctx.
  apply bind_returns in Hctx as (file & _ & Hctx). simpl in Hctx.
  apply bind_returns in Hctx as (kept & Hkept & _).
  by eapply filterRecent_returns_readable.
Qed.

End UnreadableFacts.

(** X2.  A [null] or [undefined] message makes [loadCompactedContext]
    throw a [TypeError], whatever the store holds: the filtering loop reads
    [msgAny.timestamp] before the test for missing summaries, so the
    no-summary path does not protect against it. *)
Theorem null_message_throws `{Host}
    (fs : FileSystem) (now : Z) (sid : jsstring) (msgs : list JsVal) (m : JsVal) :
  m ∈ msgs -> isNullish m = true ->
  loadCompactedContext fs now sid msgs = Throw TypeError.
Proof.
  intros Hin Hnull.
  destruct (loadCompactedContext fs now sid msgs) as [ctx|e] eqn:Hload.
  - apply loadCompactedContext_returns_readable in Hload.
    unfold readable in Hload. rewrite Forall_forall in Hload.
    specialize (Hload m Hin). congruence.
  - f_equal. by apply (onlyTypeError_loadCompactedContext fs now sid msgs).
Qed.

Lemma null_message_throws_witness :
  loadCompactedContext demoFs demoNow (lit "fresh") [msgUntimed; JNull]
    = Throw TypeError /\
  loadStoredSummaries demoFs (lit "fresh") = Return JNull.
Proof.
  split.
  - apply (null_message_throws demoFs demoNow (lit "fresh")
             [msgUntimed; JNull] JNull).
    + apply list_elem_of_further, list_elem_of_here.
    + reflexivity.
  - vm_compute. reflexivity.
Defined.

(** ** The shape of the result *)

Lemma filter_sublist {A} (f : A -> bool) (l : list A) :
  sublist (List.filter f l) l.
Proof.
  induction l as [|x l IH]; simpl; [constructor|].
  destruct (f x); by constructor.
Qed.

Lemma filter_sublist_mono {A} (f g : A -> bool) (l : list A) :
  (forall x, f x = true -> g x = true) ->
  sublist (List.filter f l) (List.filter g l).
Proof.
  intros Hfg. induction l as [|x l IH]; simpl; [constructor|].
  destruct (f x) eqn:Hf.
  - rewrite (Hfg x Hf). by constructor.
  - destruct (g x); [by constructor | done].
Qed.

Lemma filter_fixed {A} (f : A -> bool) (l : list A) :
  List.filter f (List.filter f l) = List.filter f l.
Proof.
  induction l as [|x l IH]; simpl; [done|].
  destruct (f x) eqn:Hf; simpl; [|done]. by rewrite Hf, IH.
Qed.

Section ShapeFacts.
Context `{Host}.

Lemma keptBy_true_readable (cutoffTime : TimeValue) (m : JsVal) :
  keptBy cutoffTime m = true -> isNullish m = false.
Proof.
  unfold keptBy. destruct (extractTimestamp m) as [ts|e] eqn:Hts; [|discriminate].
  intros _. by eapply extractTimestamp_returns_inv.
Qed.

(** The result in terms of the parts it is built from. *)
Lemma loadCompactedContext_compose (fs : FileSystem) (now : Z)
    (sid : jsstring) (msgs kept : list JsVal) (file : JsVal)
    (l : list JsVal) (prefix : jsstring) :
  loadStoredSummaries fs sid = Return file ->
  getProp file k_summaries = Return (JArr l) ->
  l <> [] ->
  filterRecent (cutoffAt now) msgs = Return kept ->
  formatSummariesAsContext (JArr l) = Return prefix ->
  loadCompactedContext fs now sid msgs =
  Return {| summaryPrefix := prefix;
            recentMessages := kept;
            wasSummarized := true;
            summaryCount := JNum (numOfNat (length l)) |}.
Proof.
  intros Hfile Hss Hl Hkept Hprefix. unfold loadCompactedContext.
  rewrite Hfile, bind_Return. simpl. rewrite Hkept. simpl.
  assert (ToBoolean file = true) as ->.
  { destruct file as [| |?|?|?|?|?|?]; simpl in Hss; try discriminate;
      reflexivity. }
  simpl. rewrite Hss. simpl.
  change (Qeq_bool (inject_Z (Z.of_nat ?n)) 0) with (isZero (numOfNat n)).
  rewrite isZero_numOfNat, bool_decide_eq_false_2 by (by destruct l).
  by rewrite Hprefix.
Qed.

End ShapeFacts.

Lemma recentMessages_sublist `{Host}
    (fs : FileSystem) (now : Z) (sid : jsstring) (msgs : list JsVal)
    (ctx : CompactedContext) :
  loadCompactedContext fs now sid msgs = Return ctx ->
  sublist (recentMessages ctx) msgs.
Proof.
  intros Hctx.
  apply loadCompactedContext_inv in Hctx as (file & _ & Hcases).
  destruct Hcases as [-> | (l & _ & _ & _ & _ & -> & _)]; [done|].
  apply filter_sublist.
Qed.

(** X3.  The messages returned are always a subsequence of the input:
    [loadCompactedContext] never adds, duplicates or reorders messages. *)
Theorem recentMessages_is_subsequence `{Host}
    (fs : FileSystem) (now : Z) (sid : jsstring) (msgs : list JsVal)
    (ctx : CompactedContext) :
  loadCompactedContext fs now sid msgs = Return ctx ->
  sublist (recentMessages ctx) msgs.
Proof. apply recentMessages_sublist. Qed.

Lemma recentMessages_is_subsequence_witness :
  sublist [msgUntimed; msgAtCutoff; msgGarbled] demoMessages.
Proof.
  apply (recentMessages_is_subsequence demoFs demoNow (lit "three") demoMessages
           {| summaryPrefix := blockOf marker threeSummaries;
              recentMessages := [msgUntimed; msgAtCutoff; msgGarbled];
              wasSummarized := true;
              summaryCount := JNum (numOfZ 3) |}).
  vm_compute. reflexivity.
Defined.

(** X4.  Compaction is idempotent: calling [loadCompactedContext] again,
    at the same time and on the same store, on the messages it returned
    gives the same result. *)
Theorem compaction_is_idempotent `{Host}
    (fs : FileSystem) (now : Z) (sid : jsstring) (msgs : list JsVal)
    (ctx : CompactedContext) :
  loadCompactedContext fs now sid msgs = Return ctx ->
  loadCompactedContext fs now sid (recentMessages ctx) = Return ctx.
Proof.
  intros Hctx.
  destruct (loadCompactedContext_inv _ _ _ _ _ Hctx) as (file & Hfile & Hcases).
  destruct Hcases as [-> | (l & Hl & Hss & Hprefix & _ & Hrecent & Hflag & Hcount)];
    [exact Hctx|].
  rewrite (loadCompactedContext_compose fs now sid (recentMessages ctx)
             (recentMessages ctx) file l (summaryPrefix ctx) Hfile Hss Hl).
  - destruct ctx as [p r w c]. simpl in *. by subst.
  - rewrite Hrecent, filterRecent_filter, filter_fixed; [done|].
    apply Forall_forall. intros m Hm.
    apply list_elem_of_In, filter_In in Hm as [_ Hm].
    by eapply keptBy_true_readable.
  - exact Hprefix.
Qed.

Lemma compaction_is_idempotent_witness :
  loadCompactedContext demoFs demoNow (lit "three")
    [msgUntimed; msgAtCutoff; msgGarbled] =
  Return {| summaryPrefix := blockOf marker threeSummaries;
            recentMessages := [msgUntimed; msgAtCutoff; msgGarbled];
            wasSummarized := true;
            summaryCount := JNum (numOfZ 3) |}.
Proof.
  apply (compaction_is_idempotent demoFs demoNow (lit "three") demoMessages
           {| summaryPrefix := blockOf marker threeSummaries;
              recentMessages := [msgUntimed; msgAtCutoff; msgGarbled];
              wasSummarized := true;
              summaryCount := JNum (numOfZ 3) |}).
  vm_compute. reflexivity.
Defined.

(** ** The window over time *)

Lemma TimeClip_numOfZ_Some (z t : Z) :
  TimeClip (numOfZ z) = Some t -> t = z /\ - maxTime <= z <= maxTime.
Proof.
  unfold TimeClip, numOfZ. rewrite truncate_inject_Z.
  destruct (Qle_bool (inject_Z (- maxTime)) (inject_Z z)) eqn:Hlo;
    [|discriminate].
  destruct (Qle_bool (inject_Z z) (inject_Z maxTime)) eqn:Hhi; [|discriminate].
  simpl. intros [= <-].
  apply Qle_bool_iff in Hlo, Hhi. rewrite <- Zle_Qle in Hlo, Hhi. done.
Qed.

(** X5.  The window only shrinks as time passes: on the same store and the
    same messages, what a later call returns is a subsequence of what an
    earlier call returned (the earlier cutoff not lying before the first
    representable date). *)
Theorem window_shrinks_with_time `{Host}
    (fs : FileSystem) (now1 now2 : Z) (sid : jsstring) (msgs : list JsVal)
    (ctx1 ctx2 : CompactedContext) :
  now1 <= now2 ->
  - maxTime <= now1 - KEEP_RECENT_MINUTES * 60 * 1000 ->
  loadCompactedContext fs now1 sid msgs = Return ctx1 ->
  loadCompactedContext fs now2 sid msgs = Return ctx2 ->
  sublist (recentMessages ctx2) (recentMessages ctx1).
Proof.
  intros Hle Hlo H1 H2.
  destruct (loadCompactedContext_inv _ _ _ _ _ H1) as (file & Hfile & Hcases).
  destruct Hcases as [-> | (l & Hl & Hss & Hprefix & _ & Hrecent1 & _)].
  { by eapply recentMessages_sublist. }
  pose proof (loadCompactedContext_returns_readable _ _ _ _ _ H2) as Hread.
  rewrite (loadCompactedContext_compose fs now2 sid msgs _ file l _ Hfile Hss Hl
             (filterRecent_filter _ _ Hread) Hprefix) in H2.
  injection H2 as <-. simpl. rewrite Hrecent1.
  apply filter_sublist_mono. intros m. unfold keptBy.
  destruct (extractTimestamp m) as [[tv|]|e]; simpl; try done.
  unfold date_ge. destruct tv as [x|]; [|done].
  destruct (cutoffAt now2) as [c2|] eqn:Hc2; [|done].
  apply TimeClip_numOfZ_Some in Hc2 as [-> Hrange2].
  rewrite cutoffAt_in_range by lia.
  rewrite !Z.leb_le. lia.
Qed.

Lemma window_shrinks_with_time_witness :
  sublist [msgUntimed; msgGarbled] [msgUntimed; msgAtCutoff; msgGarbled].
Proof.
  apply (window_shrinks_with_time demoFs demoNow (demoNow + 1) (lit "three")
           demoMessages
           {| summaryPrefix := blockOf marker threeSummaries;
              recentMessages := [msgUntimed; msgAtCutoff; msgGarbled];
              wasSummarized := true;
              summaryCount := JNum (numOfZ 3) |}
           {| summaryPrefix := blockOf marker threeSummaries;
              recentMessages := [msgUntimed; msgGarbled];
              wasSummarized := true;
              summaryCount := JNum (numOfZ 3) |}).
  - vm_compute. discriminate.
  - vm_compute. discriminate.
  - vm_compute. reflexivity.
  - vm_compute. reflexivity.
Defined.

(** ** The count and the flag *)

(** X6.  In every result [summaryCount] is the number 0 exactly when
    [wasSummarized] is false, and a count of at least one otherwise. *)
Theorem count_is_zero_iff_not_summarized `{Host}
    (fs : FileSystem) (now : Z) (sid : jsstring) (msgs : list JsVal)
    (ctx : CompactedContext) :
  loadCompactedContext fs now sid msgs = Return ctx ->
  (wasSummarized ctx = false <-> summaryCount ctx = JNum (numOfZ 0)) /\
  (wasSummarized ctx = true ->
   exists n, (1 <= n)%nat /\ summaryCount ctx = JNum (numOfNat n)).
Proof.
  intros Hctx.
  apply loadCompactedContext_inv in Hctx as (file & _ & Hcases).
  destruct Hcases as [-> | (l & Hl & _ & _ & _ & _ & Hflag & Hcount)].
  - simpl. split; [done | discriminate].
  - rewrite Hflag, Hcount. split.
    + split; [discriminate|]. unfold numOfNat, numOfZ, inject_Z.
      intros [= Hlen]. destruct l; [done | discriminate].
    + intros _. exists (length l). split; [|done].
      destruct l; [done | simpl; lia].
Qed.

Lemma count_is_zero_iff_not_summarized_witness :
  exists n, (1 <= n)%nat /\ JNum (numOfZ 7) = JNum (numOfNat n).
Proof.
  apply (count_is_zero_iff_not_summarized demoFs demoNow (lit "seven") demoMessages
           {| summaryPrefix := blockOf marker (drop 1 sevenSummaries);
              recentMessages := [msgUntimed; msgAtCutoff; msgGarbled];
              wasSummarized := true;
              summaryCount := JNum (numOfZ 7) |}).
  - vm_compute. reflexivity.
  - reflexivity.
Defined.

(** ** One session, one file *)

(** X7.  A call reads no file but the summary file of its own session:
    two file systems that agree at that one path give the same result. *)
Theorem only_own_summary_file_is_read `{Host}
    (fs fs' : FileSystem) (now : Z) (sid : jsstring) (msgs : list JsVal) :
  fs (summaryPath sid) = fs' (summaryPath sid) ->
  loadStoredSummaries fs sid = loadStoredSummaries fs' sid /\
  loadCompactedContext fs now sid msgs = loadCompactedContext fs' now sid msgs.
Proof.
  intros Hsame.
  assert (loadStoredSummaries fs sid = loadStoredSummaries fs' sid) as Hload.
  { unfold loadStoredSummaries, existsSync, readFileSync. by rewrite Hsame. }
  split; [exact Hload|]. unfold loadCompactedContext. by rewrite Hload.
Qed.

Lemma only_own_summary_file_is_read_witness :
  loadCompactedContext (fileAt [(lit "three", Missing)]) demoNow (lit "fresh")
    demoMessages =
  loadCompactedContext demoFs demoNow (lit "fresh") demoMessages.
Proof.
  apply (only_own_summary_file_is_read (fileAt [(lit "three", Missing)]) demoFs
           demoNow (lit "fresh") demoMessages).
  vm_compute. reflexivity.
Defined.

(** * Further properties of the formatting *)

Lemma sequence_returns_all {A} (l : list (Completion A)) (r : list A) :
  sequence l = Return r -> Forall returns l.
Proof.
  revert r. induction l as [|c l IH]; intros r; simpl; [constructor|].
  destruct c as [a|e]; [|discriminate].
  destruct (sequence l) as [r'|e] eqn:Hr; [|discriminate].
  intros _. constructor; [by eexists | by eapply IH].
Qed.

(** X8.  Stored summaries older than the last six are never read: whatever
    precedes six entries, be it [null] or any other value, the formatted
    block is that of the six alone. *)
Theorem older_summaries_are_never_read `{Host} (older recent : list JsVal) :
  length recent = 6%nat ->
  formatSummariesAsContext (JArr (older ++ recent)) =
  formatSummariesAsContext (JArr recent).
Proof.
  intros Hsix. rewrite !formatSummariesAsContext_array.
  rewrite length_app, Hsix.
  rewrite !bool_decide_eq_false_2 by lia.
  assert (lastSix (older ++ recent) = recent) as ->.
  { unfold lastSix. rewrite length_app, Hsix.
    replace (length older + 6 - 6)%nat with (length older) by lia.
    by rewrite drop_app_length. }
  assert (lastSix recent = recent) as ->; [|done].
  unfold lastSix. by rewrite Hsix.
Qed.

Lemma older_summaries_are_never_read_witness :
  formatSummariesAsContext
    (JArr ([JNull] ++ map ofStoredSummary (drop 1 sevenSummaries))) =
  formatSummariesAsContext (JArr (map ofStoredSummary (drop 1 sevenSummaries))).
Proof.
  apply (older_summaries_are_never_read [JNull]
           (map ofStoredSummary (drop 1 sevenSummaries))).
  reflexivity.
Defined.

(** X9.  A [null] or [undefined] entry among the last six stored summaries
    makes the formatting throw a [TypeError] (the callback reads its
    [period]). *)
Theorem null_summary_throws `{Host} (l : list JsVal) (s : JsVal) :
  s ∈ lastSix l -> isNullish s = true ->
  formatSummariesAsContext (JArr l) = Throw TypeError.
Proof.
  intros Hin Hnull.
  destruct (formatSummariesAsContext (JArr l)) as [out|e] eqn:Hfmt.
  - exfalso. rewrite formatSummariesAsContext_array in Hfmt.
    case_bool_decide as Hlen.
    { destruct l; [|done]. by apply elem_of_nil in Hin. }
    apply bind_returns in Hfmt as (lines & Hlines & _).
    apply sequence_returns_all in Hlines. rewrite Forall_forall in Hlines.
    destruct (Hlines (summaryLine s)) as [line Hline].
    { apply list_elem_of_In, in_map, list_elem_of_In, Hin. }
    unfold summaryLine in Hline.
    apply bind_returns in Hline as (p & Hp & _).
    apply getProp_returns_inv in Hp. congruence.
  - f_equal. by apply (onlyTypeError_format (JArr l)).
Qed.

Lemma null_summary_throws_witness :
  formatSummariesAsContext (JArr [ofStoredSummary (sampleSummary "a" "b"); JNull])
    = Throw TypeError.
Proof.
  apply (null_summary_throws
           [ofStoredSummary (sampleSummary "a" "b"); JNull] JNull).
  - apply list_elem_of_further, list_elem_of_here.
  - reflexivity.
Defined.

(** ** Lines of the block *)

Lemma countUnit_app (c : codeunit) (a b : jsstring) :
  countUnit c (a ++ b) = (countUnit c a + countUnit c b)%nat.
Proof. unfold countUnit. by rewrite List.filter_app, length_app. Qed.

Lemma countUnit_absent (c : codeunit) (s : jsstring) :
  c ∉ s -> countUnit c s = 0%nat.
Proof.
  unfold countUnit. induction s as [|x s IH]; intros Hc; simpl; [done|].
  destruct (N.eqb c x) eqn:Hcx.
  - apply N.eqb_eq in Hcx as ->. exfalso. apply Hc, list_elem_of_here.
  - apply IH. intros Hin. apply Hc. by apply list_elem_of_further.
Qed.

Lemma countUnit_join_lines (lines : list jsstring) :
  Forall (fun line => countUnit 10%N line = 0%nat) lines ->
  countUnit 10%N (join newline lines) = (length lines - 1)%nat.
Proof.
  induction 1 as [|line lines Hline Hall IH]; [done|].
  destruct lines as [|line' rest]; [simpl; by rewrite Hline|].
  change (join newline (line :: line' :: rest))
    with (line ++ newline ++ join newline (line' :: rest)).
  rewrite !countUnit_app, Hline, IH.
  change (countUnit 10%N newline) with 1%nat. simpl. lia.
Qed.

(** X10.  When no kept summary has a line break in its [period] or its
    [text], the block of [n >= 1] stored summaries holds exactly
    [min n 6 + 2] line breaks: it is the header line, one line for each
    kept summary, and the footer line, each ended by a line break. *)
Theorem block_has_one_line_per_kept_summary `{Host} (ss : list StoredSummary) :
  ss <> [] ->
  Forall (fun s => (10%N ∉ period s) /\ (10%N ∉ text s)) (lastSix ss) ->
  exists out,
    formatSummariesAsContext (JArr (map ofStoredSummary ss)) = Return out /\
    countUnit 10%N out = (Nat.min (length ss) 6 + 2)%nat.
Proof.
  intros Hss Hclean. exists (blockOf marker (lastSix ss)). split.
  { rewrite formatSummariesAsContext_typed. by destruct ss. }
  unfold blockOf. rewrite !countUnit_app.
  rewrite countUnit_join_lines.
  - rewrite length_map, lastSix_length.
    change (countUnit 10%N header) with 1%nat.
    change (countUnit 10%N footer) with 2%nat.
    destruct ss; [done|]. simpl length. lia.
  - apply Forall_map. eapply Forall_impl; [exact Hclean|].
    intros s [Hp Ht]. unfold lineOf. rewrite !countUnit_app.
    rewrite (countUnit_absent _ _ Hp), (countUnit_absent _ _ Ht). reflexivity.
Qed.

Lemma block_has_one_line_per_kept_summary_witness :
  exists out,
    formatSummariesAsContext (JArr (map ofStoredSummary sevenSummaries))
      = Return out /\
    countUnit 10%N out = 8%nat.
Proof.
  apply (block_has_one_line_per_kept_summary sevenSummaries).
  - discriminate.
  - repeat constructor; vm_compute; intros Hin;
      repeat (apply elem_of_cons in Hin as [Hin|Hin]; [discriminate|]);
      by apply elem_of_nil in Hin.
Defined.

(** * Further properties of the token estimate *)

Section EstimateSums.
Context `{Host}.

Lemma sumChars_app (f : JsVal -> Completion Z) (a b : list JsVal) :
  sumChars f (a ++ b) =
  (x ← sumChars f a; y ← sumChars f b; Return (x + y)).
Proof.
  induction a as [|m a IH]; simpl.
  - destruct (sumChars f b); reflexivity.
  - destruct (f m) as [c|e]; simpl; [|done]. rewrite IH.
    destruct (sumChars f a) as [x|e]; simpl; [|done].
    destruct (sumChars f b) as [y|e]; simpl; [|done].
    f_equal. lia.
Qed.

Lemma sumChars_permutation (f : JsVal -> Completion Z) (a b : list JsVal) :
  (forall x, onlyTypeError (f x)) ->
  a ≡ₚ b -> sumChars f a = sumChars f b.
Proof.
  intros Hf. induction 1 as [|x a b _ IH|x y a|a b c _ IH1 _ IH2]; simpl.
  - done.
  - by rewrite IH.
  - destruct (f x) as [cx|ex] eqn:Hx, (f y) as [cy|ey] eqn:Hy,
      (sumChars f a) as [s|e]; simpl; try done; try (f_equal; lia);
      by rewrite (Hf x ex Hx), (Hf y ey Hy).
  - by rewrite IH1.
Qed.

End EstimateSums.

(** X11.  The estimate does not depend on the order of the messages. *)
Theorem estimate_ignores_order `{Host} (a b : list JsVal) :
  a ≡ₚ b -> estimateTokens a = estimateTokens b.
Proof.
  intros Hperm. unfold estimateTokens.
  by rewrite (sumChars_permutation messageChars a b
                (fun msg => onlyTypeError_messageChars msg) Hperm).
Qed.

Lemma estimate_ignores_order_witness :
  estimateTokens [msgAtCutoff; msgUntimed] = estimateTokens [msgUntimed; msgAtCutoff].
Proof.
  apply (estimate_ignores_order [msgAtCutoff; msgUntimed] [msgUntimed; msgAtCutoff]).
  apply Permutation_swap.
Defined.

(** X12.  Estimating two sequences apart and adding up overshoots the
    estimate of their concatenation by at most one token, and the
    concatenation is never estimated below either part. *)
Theorem estimate_of_concatenation `{Host} (a b : list JsVal) (x y : Z) :
  estimateTokens a = Return x ->
  estimateTokens b = Return y ->
  exists z,
    estimateTokens (a ++ b) = Return z /\
    x <= z /\ y <= z /\ x + y - 1 <= z <= x + y.
Proof.
  unfold estimateTokens. intros Ha Hb.
  apply bind_returns in Ha as (ca & Hca & Ha). injection Ha as <-.
  apply bind_returns in Hb as (cb & Hcb & Hb). injection Hb as <-.
  pose proof (sumChars_nonneg _ _ _ messageChars_nonneg Hca) as Hpa.
  pose proof (sumChars_nonneg _ _ _ messageChars_nonneg Hcb) as Hpb.
  rewrite sumChars_app, Hca, Hcb. simpl. eexists. split; [reflexivity|].
  rewrite !Qceiling_quarter.
  Z.to_euclidean_division_equations. lia.
Qed.

Lemma estimate_of_concatenation_witness :
  exists z,
    estimateTokens ([msgUntimed] ++ [msgAtCutoff]) = Return z /\
    3 <= z /\ 4 <= z /\ 3 + 4 - 1 <= z <= 3 + 4.
Proof.
  apply (estimate_of_concatenation [msgUntimed] [msgAtCutoff] 3 4);
    vm_compute; reflexivity.
Defined.

(** X13.  A message that is [null] or [undefined], or whose [content] is
    neither a string nor an array, adds nothing: the estimate is the same
    with and without it.  (The method [loadCompactedContext], unlike this
    one, throws on a [null] message.) *)
Theorem contentless_message_adds_nothing `{Host}
    (before after : list JsVal) (m content : JsVal) :
  getPropOpt m k_content = Return content ->
  (forall s, content <> JStr s) ->
  (forall l, content <> JArr l) ->
  estimateTokens (before ++ m :: after) = estimateTokens (before ++ after).
Proof.
  intros Hc Hs Hl. unfold estimateTokens.
  rewrite !sumChars_app, sumChars_cons.
  rewrite (messageChars_other m content Hc Hs Hl). simpl.
  destruct (sumChars messageChars before) as [x|e]; simpl; [|done].
  destruct (sumChars messageChars after) as [y|e]; simpl; done.
Qed.

Lemma contentless_message_adds_nothing_witness :
  estimateTokens ([msgUntimed] ++ JNull :: [msgAtCutoff]) =
  estimateTokens ([msgUntimed] ++ [msgAtCutoff]).
Proof.
  apply (contentless_message_adds_nothing [msgUntimed] [msgAtCutoff] JNull
           JUndefined); [reflexivity | discriminate | discriminate].
Defined.

(** * The agent envelope *)

(** ** Trimming *)

Lemma trimStart_split (s : jsstring) :
  exists pre, s = pre ++ trimStart s /\ blank pre.
Proof.
  induction s as [|c s (pre & Hs & Hpre)]; simpl.
  - exists []. split; [done | constructor].
  - destruct (isWhiteSpace c) eqn:Hc.
    + exists (c :: pre). split; [simpl; congruence | by constructor].
    + exists []. split; [done | constructor].
Qed.

Lemma trimStart_startsClean (s : jsstring) : startsClean (trimStart s).
Proof.
  induction s as [|c s IH]; simpl; [done|].
  destruct (isWhiteSpace c) eqn:Hc; [exact IH | exact Hc].
Qed.

Lemma trimStart_fixed (s : jsstring) : startsClean s -> trimStart s = s.
Proof. destruct s as [|c s]; simpl; [done|]. by intros ->. Qed.

Lemma trimStart_blank (s : jsstring) : blank s <-> trimStart s = [].
Proof.
  split.
  - induction 1 as [|c s Hc _ IH]; simpl; [done|]. by rewrite Hc.
  - induction s as [|c s IH]; simpl; [constructor|].
    destruct (isWhiteSpace c) eqn:Hc; [|discriminate].
    intros Hs. constructor; [done | by apply IH].
Qed.

Lemma trimEnd_split (s : jsstring) :
  exists post, s = trimEnd s ++ post /\ blank post.
Proof.
  destruct (trimStart_split (rev s)) as (pre & Hs & Hpre).
  exists (rev pre). split.
  - unfold trimEnd. rewrite <- rev_app_distr, <- Hs. by rewrite rev_involutive.
  - unfold blank in *. apply Forall_forall. intros c Hc.
    rewrite Forall_forall in Hpre. apply Hpre.
    apply list_elem_of_In. apply list_elem_of_In in Hc. by apply in_rev.
Qed.

Lemma trimEnd_keeps_start (s : jsstring) :
  startsClean s -> startsClean (trimEnd s).
Proof.
  destruct (trimEnd_split s) as (post & Hs & _).
  destruct (trimEnd s) as [|c t]; [done|].
  rewrite Hs. simpl. done.
Qed.

Lemma trimEnd_fixed (s : jsstring) : startsClean (rev s) -> trimEnd s = s.
Proof.
  intros Hs. unfold trimEnd. rewrite trimStart_fixed by done.
  apply rev_involutive.
Qed.

Lemma trim_startsClean (s : jsstring) : startsClean (trim s).
Proof. apply trimEnd_keeps_start, trimStart_startsClean. Qed.

Lemma trim_endsClean (s : jsstring) : startsClean (rev (trim s)).
Proof.
  unfold trim, trimEnd. rewrite rev_involutive. apply trimStart_startsClean.
Qed.

Lemma blank_app (a b : jsstring) : blank (a ++ b) <-> blank a /\ blank b.
Proof. apply Forall_app. Qed.

Lemma blank_rev (s : jsstring) : blank s -> blank (rev s).
Proof.
  unfold blank. rewrite !Forall_forall. intros Hs c Hc. apply Hs.
  apply list_elem_of_In. apply list_elem_of_In in Hc. by apply in_rev.
Qed.

Lemma trim_blank (s : jsstring) : blank s <-> trim s = [].
Proof.
  split.
  - intros Hs. unfold trim. apply trimStart_blank in Hs. by rewrite Hs.
  - intros Ht.
    destruct (trimStart_split s) as (pre & Hs & Hpre).
    destruct (trimEnd_split (trimStart s)) as (post & Hs' & Hpost).
    fold (trim s) in Hs'. rewrite Ht in Hs'. simpl in Hs'.
    rewrite Hs, Hs'. by apply blank_app.
Qed.

Lemma trim_trim (s : jsstring) : trim (trim s) = trim s.
Proof.
  unfold trim at 1.
  rewrite (trimStart_fixed (trim s)) by apply trim_startsClean.
  apply trimEnd_fixed, trim_endsClean.
Qed.

(** [trim] cuts a string down to the part between its leading and
    trailing white space: the string is [pre ++ trim s ++ post] with [pre]
    and [post] white space only, the trimmed string neither starts nor ends
    with white space, and trimming it again changes nothing. *)
Lemma trim_is_the_core (s : jsstring) :
  (exists pre post, s = pre ++ trim s ++ post /\ blank pre /\ blank post) /\
  startsClean (trim s) /\
  startsClean (rev (trim s)) /\
  trim (trim s) = trim s.
Proof.
  split; [|split; [apply trim_startsClean | split; [apply trim_endsClean|]]].
  - destruct (trimStart_split s) as (pre & Hs & Hpre).
    destruct (trimEnd_split (trimStart s)) as (post & Hs' & Hpost).
    exists pre, post. split; [|done].
    rewrite Hs at 1. f_equal. exact Hs'.
  - apply trim_trim.
Qed.

Section EnvelopeFacts.
Context `{LocalTime}.
Import Envelope.

Lemma pushTrimmed_blank (s : jsstring) :
  blank s -> pushTrimmed (Some s) = pushTrimmed None.
Proof. intros Hs. unfold pushTrimmed. apply trim_blank in Hs. by rewrite Hs. Qed.

Lemma pushTrimmed_trim (s : jsstring) :
  pushTrimmed (Some (trim s)) = pushTrimmed (Some s).
Proof.
  unfold pushTrimmed. by rewrite trim_trim.
Qed.

End EnvelopeFacts.

(** X14.  A [from], a [host] or an [ip] made of white space only is left
    out of the envelope as if it were absent, whatever the other fields
    hold, and a surface made of white space only is replaced by the word
    Surface. *)
Theorem blank_fields_are_left_out `{LocalTime}
    (sf bd : jsstring) (ts : option Envelope.Timestamp)
    (fo ho io : option jsstring) (blanks : jsstring) :
  blank blanks ->
  Envelope.formatAgentEnvelope
    {| Envelope.surface := sf; Envelope.from := Some blanks;
       Envelope.timestamp := ts; Envelope.host := ho;
       Envelope.ip := io; Envelope.body := bd |} =
  Envelope.formatAgentEnvelope
    {| Envelope.surface := sf; Envelope.from := None;
       Envelope.timestamp := ts; Envelope.host := ho;
       Envelope.ip := io; Envelope.body := bd |} /\
  Envelope.formatAgentEnvelope
    {| Envelope.surface := sf; Envelope.from := fo;
       Envelope.timestamp := ts; Envelope.host := Some blanks;
       Envelope.ip := io; Envelope.body := bd |} =
  Envelope.formatAgentEnvelope
    {| Envelope.surface := sf; Envelope.from := fo;
       Envelope.timestamp := ts; Envelope.host := None;
       Envelope.ip := io; Envelope.body := bd |} /\
  Envelope.formatAgentEnvelope
    {| Envelope.surface := sf; Envelope.from := fo;
       Envelope.timestamp := ts; Envelope.host := ho;
       Envelope.ip := Some blanks; Envelope.body := bd |} =
  Envelope.formatAgentEnvelope
    {| Envelope.surface := sf; Envelope.from := fo;
       Envelope.timestamp := ts; Envelope.host := ho;
       Envelope.ip := None; Envelope.body := bd |} /\
  Envelope.formatAgentEnvelope
    {| Envelope.surface := blanks; Envelope.from := fo;
       Envelope.timestamp := ts; Envelope.host := ho;
       Envelope.ip := io; Envelope.body := bd |} =
  Envelope.formatAgentEnvelope
    {| Envelope.surface := lit "Surface"; Envelope.from := fo;
       Envelope.timestamp := ts; Envelope.host := ho;
       Envelope.ip := io; Envelope.body := bd |}.
Proof.
  intros Hblank. unfold Envelope.formatAgentEnvelope.
  cbn [Envelope.surface Envelope.from Envelope.host Envelope.ip
       Envelope.timestamp Envelope.body].
  rewrite !pushTrimmed_blank by done.
  apply trim_blank in Hblank. rewrite Hblank.
  change (trim (lit "Surface")) with (lit "Surface"). done.
Qed.

Lemma blank_fields_are_left_out_witness :
  Envelope.formatAgentEnvelope
    {| Envelope.surface := lit "WhatsApp"; Envelope.from := Some [9%N; 32%N];
       Envelope.timestamp := Some (Envelope.TsNumber (numOfZ demoInstant)); Envelope.host := Some (lit "h");
       Envelope.ip := Some (lit "1.2.3.4"); Envelope.body := lit "hi" |} =
  lit "[WhatsApp h 1.2.3.4 1970-02-03 04:05] hi".
Proof.
  assert (blank [9%N; 32%N]) as Hblank by repeat constructor.
  etransitivity.
  - exact (proj1 (blank_fields_are_left_out (lit "WhatsApp") (lit "hi")
                    (Some (Envelope.TsNumber (numOfZ demoInstant))) None
                    (Some (lit "h")) (Some (lit "1.2.3.4")) [9%N; 32%N] Hblank)).
  - vm_compute. reflexivity.
Defined.

Lemma pushTrimmed_fmap_trim `{LocalTime} (field : option jsstring) :
  Envelope.pushTrimmed (trim <$> field) = Envelope.pushTrimmed field.
Proof. destruct field as [s|]; [apply pushTrimmed_trim | done]. Qed.

(** X15.  Trimming the surface and whichever of [from], [host] and [ip]
    are present beforehand does not change the envelope. *)
Theorem envelope_ignores_outer_white_space `{LocalTime}
    (sf bd : jsstring) (fo ho io : option jsstring)
    (ts : option Envelope.Timestamp) :
  Envelope.formatAgentEnvelope
    {| Envelope.surface := trim sf; Envelope.from := trim <$> fo;
       Envelope.timestamp := ts; Envelope.host := trim <$> ho;
       Envelope.ip := trim <$> io; Envelope.body := bd |} =
  Envelope.formatAgentEnvelope
    {| Envelope.surface := sf; Envelope.from := fo;
       Envelope.timestamp := ts; Envelope.host := ho;
       Envelope.ip := io; Envelope.body := bd |}.
Proof.
  unfold Envelope.formatAgentEnvelope.
  cbn [Envelope.surface Envelope.from Envelope.host Envelope.ip
       Envelope.timestamp Envelope.body].
  rewrite !pushTrimmed_fmap_trim.
  by rewrite trim_trim.
Qed.

(** ** The timestamp of the envelope *)

Lemma rangeFrom_forallb (P : Z -> bool) (lo n : Z) :
  forallb P (rangeFrom lo n) = true ->
  forall z, lo <= z < lo + n -> P z = true.
Proof.
  intros Hall z Hz. rewrite forallb_forall in Hall. apply Hall.
  unfold rangeFrom. apply in_map_iff. exists (Z.to_nat (z - lo)).
  split; [lia|]. apply in_seq. lia.
Qed.

Lemma year_prints_four_digits (y : Z) :
  1000 <= y <= 9999 -> decimal y = fourDigits y.
Proof.
  intros Hy. apply str_eqb_eq.
  apply (rangeFrom_forallb (fun z => str_eqb (decimal z) (fourDigits z)) 1000 9000);
    [vm_compute; reflexivity | lia].
Qed.

Lemma pad_prints_two_digits (n : Z) :
  0 <= n <= 99 -> Envelope.pad n = twoDigits n.
Proof.
  intros Hn. apply str_eqb_eq.
  apply (rangeFrom_forallb (fun z => str_eqb (Envelope.pad z) (twoDigits z)) 0 100);
    [vm_compute; reflexivity | lia].
Qed.

(** X16.  A timestamp that is the number 0 (the epoch itself), a number
    that gives no valid date (NaN, an infinity, beyond the range of
    [Date]), or an invalid [Date], is left out of the envelope as if it
    were absent. *)
Theorem unusable_timestamp_is_left_out `{LocalTime}
    (sf bd : jsstring) (fo ho io : option jsstring) (ts : Envelope.Timestamp) :
  ts = Envelope.TsNumber (numOfZ 0) \/
  (exists n, ts = Envelope.TsNumber n /\ TimeClip n = None) \/
  ts = Envelope.TsDate None ->
  Envelope.formatTimestamp (Some ts) = None /\
  Envelope.formatAgentEnvelope
    {| Envelope.surface := sf; Envelope.from := fo; Envelope.timestamp := Some ts;
       Envelope.host := ho; Envelope.ip := io; Envelope.body := bd |} =
  Envelope.formatAgentEnvelope
    {| Envelope.surface := sf; Envelope.from := fo; Envelope.timestamp := None;
       Envelope.host := ho; Envelope.ip := io; Envelope.body := bd |}.
Proof.
  intros Hts.
  assert (Envelope.formatTimestamp (Some ts) = None) as Hnone.
  { destruct Hts as [-> | [(n & -> & Hclip) | ->]]; [reflexivity | | reflexivity].
    unfold Envelope.formatTimestamp. rewrite Hclip.
    by destruct (negb _). }
  split; [exact Hnone|].
  unfold Envelope.formatAgentEnvelope.
  cbn [Envelope.surface Envelope.from Envelope.host Envelope.ip
       Envelope.timestamp Envelope.body].
  by rewrite Hnone.
Qed.

Lemma unusable_timestamp_is_left_out_witness :
  Envelope.formatAgentEnvelope
    {| Envelope.surface := lit "WhatsApp"; Envelope.from := Some (lit " bob ");
       Envelope.timestamp := Some (Envelope.TsNumber (numOfZ 0));
       Envelope.host := None; Envelope.ip := None; Envelope.body := lit "hi" |} =
  lit "[WhatsApp bob] hi".
Proof.
  etransitivity.
  - apply (unusable_timestamp_is_left_out (lit "WhatsApp") (lit "hi")
             (Some (lit " bob ")) None None (Envelope.TsNumber (numOfZ 0))).
    by left.
  - reflexivity.
Defined.

(** X17.  A usable timestamp is printed as [YYYY-MM-DD HH:MM] in local
    time: the four digits of the year, the two digits of the month counted
    from one (the getter's month plus one), of the day, of the hour and of
    the minute, in that order, sixteen code units in all, whenever the
    local year has four digits (the getters being within their calendar
    ranges). *)
Theorem timestamp_has_minute_precision `{LocalTime}
    (ts : Envelope.Timestamp) (t : Z) :
  Envelope.truthy ts = true ->
  match ts with Envelope.TsDate tv => tv | Envelope.TsNumber n => TimeClip n end
    = Some t ->
  1000 <= getFullYear t <= 9999 ->
  0 <= getMonth t <= 11 ->
  1 <= getDate t <= 31 ->
  0 <= getHours t <= 23 ->
  0 <= getMinutes t <= 59 ->
  exists out,
    Envelope.formatTimestamp (Some ts) = Some out /\
    out = fourDigits (getFullYear t) ++ lit "-" ++ twoDigits (getMonth t + 1)
          ++ lit "-" ++ twoDigits (getDate t) ++ lit " "
          ++ twoDigits (getHours t) ++ lit ":" ++ twoDigits (getMinutes t) /\
    length out = 16%nat.
Proof.
  intros Htruthy Hdate Hy Hmo Hd Hh Hmi.
  eexists. split; [|split; [reflexivity | reflexivity]].
  unfold Envelope.formatTimestamp. rewrite Htruthy. simpl negb. cbv iota.
  rewrite Hdate.
  rewrite (year_prints_four_digits _ Hy).
  rewrite !pad_prints_two_digits by lia.
  reflexivity.
Qed.

Lemma timestamp_has_minute_precision_witness :
  exists out,
    Envelope.formatTimestamp (Some (Envelope.TsNumber (numOfZ demoInstant)))
      = Some out /\
    out = lit "1970-02-03 04:05" /\
    length out = 16%nat.
Proof.
  assert (forall lo x hi : Z, (lo <=? x) = true -> (x <=? hi) = true ->
            lo <= x <= hi) as Hin.
  { intros lo x hi Hlo Hhi. apply Z.leb_le in Hlo, Hhi. by split. }
  exact (timestamp_has_minute_precision
           (Envelope.TsNumber (numOfZ demoInstant)) demoInstant eq_refl eq_refl
           (Hin 1000 1970 9999 eq_refl eq_refl)
           (Hin 0 1 11 eq_refl eq_refl)
           (Hin 1 3 31 eq_refl eq_refl)
           (Hin 0 4 23 eq_refl eq_refl)
           (Hin 0 5 59 eq_refl eq_refl)).
Defined.

(** The envelope with every field present. *)
Example envelope_with_every_field :
  Envelope.formatAgentEnvelope
    {| Envelope.surface := lit " WhatsApp "; Envelope.from := Some (lit "bob ");
       Envelope.timestamp := Some (Envelope.TsNumber (numOfZ demoInstant)); Envelope.host := Some (lit "h");
       Envelope.ip := Some (lit "1.2.3.4"); Envelope.body := lit "hi" |} =
  lit "[WhatsApp bob h 1.2.3.4 1970-02-03 04:05] hi".
Proof. vm_compute. reflexivity. Qed.

(** ** The header of the envelope *)

Lemma join_cons_head (sep : jsstring) (c : codeunit) (s : jsstring)
    (rest : list jsstring) :
  exists tail, join sep ((c :: s) :: rest) = c :: tail.
Proof. destruct rest; simpl; eauto. Qed.

(** X18.  The envelope is an opening bracket, a header that is not empty
    and does not start with white space, and then the body after a closing
    bracket and one space: a missing or blank surface never leaves the
    brackets empty. *)
Theorem envelope_header_is_never_empty `{LocalTime}
    (params : Envelope.AgentEnvelopeParams) :
  exists c header,
    Envelope.formatAgentEnvelope params =
      lit "[" ++ (c :: header) ++ lit "] " ++ Envelope.body params /\
    isWhiteSpace c = false.
Proof.
  unfold Envelope.formatAgentEnvelope.
  set (rest := Envelope.pushTrimmed (Envelope.from params) ++ _).
  assert (exists c s,
    match trim (Envelope.surface params) with [] => lit "Surface" | t => t end
      = c :: s /\ isWhiteSpace c = false) as (c & s & -> & Hc).
  { pose proof (trim_startsClean (Envelope.surface params)) as Hclean.
    destruct (trim (Envelope.surface params)) as [|c s].
    - eexists _, _. split; reflexivity.
    - by exists c, s. }
  change ([c :: s] ++ rest) with ((c :: s) :: rest).
  destruct (join_cons_head (lit " ") c s rest) as [tail ->].
  exists c, tail. split; [|done].
  by rewrite <- !app_assoc.
Qed.
